(** * The chat relay route of fancychat-app

    A shallow embedding of the two variants of the [/api/chat] route
    handler: the timeout-aware one ([POST], with [createTimeoutController])
    and the base one ([Base.POST], [src/app/api/chat/route.js]).

    The handlers are JavaScript [async] functions.  They are embedded as
    computations in a small monad that threads the state of the host (the
    clock, the pending timers, the abort controllers, the console) and whose
    results are JavaScript completions: a statement completes normally,
    returns from the function, or throws. *)

From Stdlib Require Import String Ascii List Bool ZArith NArith Lia.
From Stdlib Require Import PrimFloat DecimalString.
Import ListNotations.

Set Warnings "-register-all,-inexact-float".
Local Open Scope string_scope.
Local Open Scope list_scope.

(** ** JavaScript values *)

(** The values [JSON.parse] produces, plus [undefined], which reading a
    missing property produces.  Numbers are IEEE binary64 floats.  An object
    is the list of its own properties, in insertion order; a property is
    read at its first binding. *)
Inductive value : Type :=
| Undefined
| Null
| Bool (b : bool)
| Num (f : float)
| Str (s : string)
| Arr (items : list value)
| Obj (props : list (string * value)).

(** [ToBoolean]: [undefined], [null], [false], [0], [-0], [NaN] and the
    empty string are falsy, everything else (every array and object too) is
    truthy. *)
Definition truthy (v : value) : bool :=
  match v with
  | Undefined | Null => false
  | Bool b => b
  | Num f => negb (is_zero f || is_nan f)
  | Str s => negb (s =? "")
  | Arr _ | Obj _ => true
  end.

(** [Array.isArray]. *)
Definition Array_isArray (v : value) : bool :=
  match v with
  | Arr _ => true
  | _ => false
  end.

(** [a || b] on values. *)
Definition or_else (a b : value) : value :=
  if truthy a then a else b.

Fixpoint lookup (k : string) (props : list (string * value)) : option value :=
  match props with
  | [] => None
  | (k', v) :: rest => if k' =? k then Some v else lookup k rest
  end.

(** Reading property [k] of a value that is neither [undefined] nor
    [null].  The handlers read [message], [choices], [content] and [usage],
    none of which a prototype provides, so only own properties of objects
    answer. *)
Definition own_prop (v : value) (k : string) : value :=
  match v with
  | Obj props =>
      match lookup k props with
      | Some x => x
      | None => Undefined
      end
  | _ => Undefined
  end.

(** [v?.k]. *)
Definition opt_prop (v : value) (k : string) : value :=
  match v with
  | Undefined | Null => Undefined
  | _ => own_prop v k
  end.

(** The property name of an array index. *)
Definition index_key (i : nat) : string :=
  NilEmpty.string_of_uint (Nat.to_uint i).

(** [v[i]] on a value that is neither [undefined] nor [null]. *)
Definition own_index (v : value) (i : nat) : value :=
  match v with
  | Arr items => nth i items Undefined
  | Str s =>
      match String.get i s with
      | Some c => Str (String c EmptyString)
      | None => Undefined
      end
  | Obj _ => own_prop v (index_key i)
  | _ => Undefined
  end.

(** [String.prototype.includes]. *)
Fixpoint includes (s sub : string) : bool :=
  prefix sub s ||
  match s with
  | EmptyString => false
  | String _ rest => includes rest sub
  end.

(** ** Errors, requests, responses *)

(** A thrown error: the three properties the handlers inspect ([name],
    [message], [code]) and the one where the fetch of Node.js puts the
    system error of a failed connection ([cause]), which no handler reads. *)
Record JsError : Type := {
  err_name : string;
  err_message : string;
  err_code : value;
  err_cause : value
}.

(** The error of reading a property of [undefined] or [null] (the text is
    the one of V8, the engine of Node.js). *)
Definition TypeError_read (what k : string) : JsError :=
  {| err_name := "TypeError";
     err_message := "Cannot read properties of " ++ what
                    ++ " (reading '" ++ k ++ "')";
     err_code := Undefined;
     err_cause := Undefined |}.

(** The error a fetch rejects with when its signal is aborted. *)
Definition AbortError : JsError :=
  {| err_name := "AbortError";
     err_message := "This operation was aborted";
     err_code := Num 20%float;
     err_cause := Undefined |}.

(** The error the fetch of Node.js rejects with when the connection fails:
    a [TypeError] "fetch failed" that has no [code] of its own; the system
    error, with its code ([ECONNREFUSED], [ENOTFOUND], [ETIMEDOUT], ...),
    is its [cause]. *)
Definition fetch_failed (system_code : string) : JsError :=
  {| err_name := "TypeError";
     err_message := "fetch failed";
     err_code := Undefined;
     err_cause := Obj [("code", Str system_code)] |}.

(** [e.code === s] for a string literal [s]. *)
Definition code_is (e : JsError) (s : string) : bool :=
  match err_code e with
  | Str c => c =? s
  | _ => false
  end.

(** What awaiting a promise of the host gives: [inl] is a rejection. *)
Definition outcome (A : Type) : Type := (JsError + A)%type.

(** The incoming request: all the handlers do with it is [request.json()]. *)
Record Request : Type := {
  request_json : outcome value
}.

(** What the handler hands to the framework: [NextResponse.json(data, init)].
    The data is kept as the JavaScript value given, before serialisation. *)
Record Response : Type := {
  status : Z;
  body : value
}.

(** [NextResponse.json(data)]: status 200. *)
Definition NextResponse_json (data : value) : Response :=
  {| status := 200; body := data |}.

Definition double_quote : string := String (ascii_of_nat 34) EmptyString.

(** What [Response.json], on which [NextResponse.json] is built, throws for
    a status outside the range 200-599. *)
Definition RangeError_status : JsError :=
  {| err_name := "RangeError";
     err_message := "init[" ++ double_quote ++ "status" ++ double_quote
                    ++ "] must be in the range of 200 to 599, inclusive.";
     err_code := Undefined;
     err_cause := Undefined |}.

(** The statuses whose response has no body (Fetch standard). *)
Definition null_body_status (st : Z) : bool :=
  (st =? 101)%Z || (st =? 103)%Z || (st =? 204)%Z || (st =? 205)%Z
  || (st =? 304)%Z.

(** What it throws for a status that allows no body. *)
Definition TypeError_null_body (st : Z) : JsError :=
  {| err_name := "TypeError";
     err_message := "Response constructor: Invalid response status code "
                    ++ NilEmpty.string_of_int (Z.to_int st);
     err_code := Undefined;
     err_cause := Undefined |}.

(** [NextResponse.json(data, { status })]: the status must be in the range
    200-599 and must allow a body, or the call throws. *)
Definition NextResponse_json_init (data : value) (init_status : Z)
  : outcome Response :=
  if (init_status <? 200)%Z || (599 <? init_status)%Z
  then inl RangeError_status
  else if null_body_status init_status
  then inl (TypeError_null_body init_status)
  else inr {| status := init_status; body := data |}.

(** [NextResponse.json] accepts the status [st]. *)
Definition accepts_status (st : Z) : bool :=
  negb ((st <? 200)%Z || (599 <? st)%Z) && negb (null_body_status st).

(** [process.env]: a variable is a string or is not set. *)
Record Env : Type := {
  OPENROUTER_API_KEY : option string;
  APP_URL : option string;
  APP_NAME : option string
}.

Definition env_value (o : option string) : value :=
  match o with
  | Some s => Str s
  | None => Undefined
  end.

(** [`${v}`] for a value out of [process.env]. *)
Definition template (o : option string) : string :=
  match o with
  | Some s => s
  | None => "undefined"
  end.

(** ** The upstream service *)

(** What [fetch] puts on the wire.  [payload] is the argument of
    [JSON.stringify]. *)
Record WireRequest : Type := {
  url : string;
  method : string;
  headers : list (string * value);
  payload : value
}.

(** The response object of [fetch]: status line, and what reading the body
    with [text()] and with [json()] gives once the body has been read; the
    time the reading takes is not part of the model. *)
Record FetchResponse : Type := {
  resp_status : Z;
  resp_statusText : string;
  resp_text : outcome string;
  resp_json : outcome value
}.

(** [response.ok]: the status is in the range 200-299. *)
Definition ok (r : FetchResponse) : bool :=
  (200 <=? resp_status r)%Z && (resp_status r <=? 299)%Z.

(** How the upstream answers one request: with a response or with a
    transport failure after [latency] milliseconds, or never. *)
Inductive FetchOutcome : Type :=
| Responds (latency : N) (r : FetchResponse)
| Rejects (latency : N) (e : JsError)
| Hangs.

(** What is behind a call of [fetch], as a function of the request: the
    service, and the HTTP client of the host in front of it, with its own
    refusals and timeouts. *)
Definition Upstream : Type := WireRequest -> FetchOutcome.

(** The header values the host sends.  A value is first stripped of leading
    and trailing tabs, spaces, carriage returns and line feeds; what is
    left must consist of tabs and of characters from U+0020 to U+007E and
    from U+0080 to U+00FF.  (A string of this development holds code units
    below 256.) *)
Definition http_whitespace (c : ascii) : bool :=
  let n := nat_of_ascii c in
  Nat.eqb n 9 || Nat.eqb n 10 || Nat.eqb n 13 || Nat.eqb n 32.

Fixpoint drop_leading (s : string) : string :=
  match s with
  | EmptyString => EmptyString
  | String c rest => if http_whitespace c then drop_leading rest else s
  end.

Fixpoint drop_trailing (s : string) : string :=
  match s with
  | EmptyString => EmptyString
  | String c rest =>
      match drop_trailing rest with
      | EmptyString =>
          if http_whitespace c then EmptyString else String c EmptyString
      | kept => String c kept
      end
  end.

Definition header_char (c : ascii) : bool :=
  let n := nat_of_ascii c in
  Nat.eqb n 9 || (Nat.leb 32 n && Nat.leb n 126) || Nat.leb 128 n.

Fixpoint all_chars (p : ascii -> bool) (s : string) : bool :=
  match s with
  | EmptyString => true
  | String c rest => p c && all_chars p rest
  end.

Definition header_value_ok (v : string) : bool :=
  all_chars header_char (drop_trailing (drop_leading v)).

Definition sendable (q : WireRequest) : bool :=
  forallb (fun h : string * value =>
             match snd h with
             | Str v => header_value_ok v
             | _ => true
             end)
          (headers q).

(** The error [fetch] rejects with, before anything is sent, when a header
    value is not one the host sends.  It is a [TypeError] without a [code];
    the handlers look at nothing else of it. *)
Definition TypeError_header : JsError :=
  {| err_name := "TypeError";
     err_message := "Headers.append: invalid header value.";
     err_code := Undefined;
     err_cause := Undefined |}.

(** A service seen through the host's check of the request: a request that
    is not [sendable] is refused at once, the others reach the service. *)
Definition client (service : Upstream) : Upstream :=
  fun q => if sendable q then service q else Rejects 0 TypeError_header.

(** ** The host: clock, timers, abort controllers, console *)

(** A pending [setTimeout(() => controller.abort(), ms)]: when it is due and
    which controller its callback aborts. *)
Record Timer : Type := {
  due : N;
  aborts : nat
}.

(** What [console.error] was given after its label. *)
Inductive LogPayload : Type :=
| LogError (e : JsError)
| LogData (v : value)
| LogText (s : string)
| LogUpstream (st : Z) (statusText : string) (error : string).

(** The state of the host that outlives a statement.  A timer handle is a
    position in [timers] ([None] once the timer has fired or was cleared), a
    controller is a position in [controllers] (its [signal.aborted] flag);
    both lists only grow, so a new handle is fresh. *)
Record World : Type := {
  clock : N;
  timers : list (option Timer);
  controllers : list bool;
  console : list (string * LogPayload)
}.

Definition world0 : World :=
  {| clock := 0; timers := []; controllers := []; console := [] |}.

Fixpoint set_nth {A : Type} (i : nat) (x : A) (l : list A) : list A :=
  match l, i with
  | [], _ => []
  | _ :: rest, O => x :: rest
  | y :: rest, S j => y :: set_nth j x rest
  end.

Definition is_due (t : N) (slot : option Timer) : bool :=
  match slot with
  | Some tm => (due tm <=? t)%N
  | None => false
  end.

(** The callbacks of the timers in [slots] that are due at [t] run: each
    aborts its controller. *)
Fixpoint run_due (t : N) (slots : list (option Timer)) (cs : list bool)
  : list bool :=
  match slots with
  | [] => cs
  | slot :: rest =>
      let cs' := match slot with
                 | Some tm => if is_due t slot then set_nth (aborts tm) true cs
                              else cs
                 | None => cs
                 end in
      run_due t rest cs'
  end.

(** Time passes until [t]: the timers due by then fire and are no longer
    pending. *)
Definition advance (t : N) (w : World) : World :=
  {| clock := N.max (clock w) t;
     timers := map (fun slot => if is_due t slot then None else slot) (timers w);
     controllers := run_due t (timers w) (controllers w);
     console := console w |}.

Definition is_pending (h : nat) (w : World) : bool :=
  match nth h (timers w) None with
  | Some _ => true
  | None => false
  end.

Definition is_aborted (c : nat) (w : World) : bool :=
  nth c (controllers w) false.

(** The earliest time at which a pending timer aborts controller [c]. *)
Fixpoint abort_time (c : nat) (slots : list (option Timer)) : option N :=
  match slots with
  | [] => None
  | slot :: rest =>
      match slot with
      | Some tm =>
          if Nat.eqb (aborts tm) c then
            match abort_time c rest with
            | Some d => Some (N.min (due tm) d)
            | None => Some (due tm)
            end
          else abort_time c rest
      | None => abort_time c rest
      end
  end.

(** ** Completions and the monad of statements *)

(** How a statement completes: normally with a value, by [return], or by
    [throw]. *)
Inductive completion (A : Type) : Type :=
| Normal (a : A)
| Return (r : Response)
| Throw (e : JsError).

Arguments Normal {A} a.
Arguments Return {A} r.
Arguments Throw {A} e.

(** A statement over a state [S]; [None] is a statement that never
    completes (an [await] on a promise that never settles). *)
Definition M (S A : Type) : Type := S -> option (completion A * S).

Definition ret {S A : Type} (a : A) : M S A :=
  fun s => Some (Normal a, s).

Definition bind {S A B : Type} (m : M S A) (k : A -> M S B) : M S B :=
  fun s =>
    match m s with
    | None => None
    | Some (Normal a, s') => k a s'
    | Some (Return r, s') => Some (Return r, s')
    | Some (Throw e, s') => Some (Throw e, s')
    end.

Definition return_ {S A : Type} (r : Response) : M S A :=
  fun s => Some (Return r, s).

Definition throw {S A : Type} (e : JsError) : M S A :=
  fun s => Some (Throw e, s).

(** [try { body } catch (e) { handler }]. *)
Definition try_catch {S A : Type} (body : M S A) (handler : JsError -> M S A)
  : M S A :=
  fun s =>
    match body s with
    | Some (Throw e, s') => handler e s'
    | other => other
    end.

(** [if (c) { m }] with no [else]. *)
Definition when_ {S : Type} (c : bool) (m : M S unit) : M S unit :=
  if c then m else ret tt.

Declare Scope js_scope.
Delimit Scope js_scope with js.

Notation "x <- m ;; k" := (bind m (fun x => k))
  (at level 61, m at next level, right associativity) : js_scope.
Notation "' pat <- m ;; k" := (bind m (fun x => match x with pat => k end))
  (at level 61, pat pattern, m at next level, right associativity) : js_scope.
Notation "m ;; k" := (bind m (fun _ => k))
  (at level 61, right associativity) : js_scope.

Local Open Scope js_scope.

(** How an [async] function settles. *)
Inductive settled : Type :=
| Resolved (r : Response)
| Rejected (e : JsError).

(** Calling an [async] function whose every path returns or throws. *)
Definition async_call {S : Type} (fn : M S Empty_set) (s : S)
  : option (settled * S) :=
  match fn s with
  | None => None
  | Some (Normal a, _) => match a with end
  | Some (Return r, s') => Some (Resolved r, s')
  | Some (Throw e, s') => Some (Rejected e, s')
  end.

(** [await p] for a promise of the host that settles with [o]. *)
Definition await {S A : Type} (o : outcome A) : M S A :=
  match o with
  | inl e => throw e
  | inr a => ret a
  end.

(** [return f(...)] for a call of the host that gives [o]: the function
    returns its value, or the call throws. *)
Definition returning {S A : Type} (o : outcome Response) : M S A :=
  match o with
  | inl e => throw e
  | inr r => return_ r
  end.

(** [v.k]: throws on [undefined] and [null]. *)
Definition get_prop {S : Type} (v : value) (k : string) : M S value :=
  match v with
  | Undefined => throw (TypeError_read "undefined" k)
  | Null => throw (TypeError_read "null" k)
  | _ => ret (own_prop v k)
  end.

(** [v[i]]: throws on [undefined] and [null]. *)
Definition get_index {S : Type} (v : value) (i : nat) : M S value :=
  match v with
  | Undefined => throw (TypeError_read "undefined" (index_key i))
  | Null => throw (TypeError_read "null" (index_key i))
  | _ => ret (own_index v i)
  end.

(** The state of one call of a handler: the host and the handler's own
    [let] variables. *)
Record Frame (L : Type) : Type := {
  world : World;
  locals : L
}.

Arguments world {L} f.
Arguments locals {L} f.

Definition with_world {L : Type} (w : World) (fr : Frame L) : Frame L :=
  {| world := w; locals := locals fr |}.

Section Host.
Context {L : Type}.

Definition update_world (f : World -> World) : M (Frame L) unit :=
  fun s => Some (Normal tt, with_world (f (world s)) s).

(** [console.error(label, payload)]. *)
Definition console_error (label : string) (p : LogPayload)
  : M (Frame L) unit :=
  update_world (fun w =>
    {| clock := clock w; timers := timers w; controllers := controllers w;
       console := console w ++ [(label, p)] |}).

(** [new AbortController()]. *)
Definition new_AbortController : M (Frame L) nat :=
  fun s =>
    let w := world s in
    Some (Normal (length (controllers w)),
          with_world {| clock := clock w; timers := timers w;
                        controllers := controllers w ++ [false];
                        console := console w |} s).

(** The delay [setTimeout] works with: Node.js sets a delay below 1 or
    above [TIMEOUT_MAX] to 1. *)
Definition TIMEOUT_MAX : N := 2147483647.

Definition timer_delay (ms : N) : N :=
  if (ms <? 1)%N || (TIMEOUT_MAX <? ms)%N then 1%N else ms.

(** [setTimeout(() => controller.abort(), ms)]. *)
Definition setTimeout_abort (controller : nat) (ms : N) : M (Frame L) nat :=
  fun s =>
    let w := world s in
    Some (Normal (length (timers w)),
          with_world {| clock := clock w;
                        timers := timers w
                                  ++ [Some {| due := clock w + timer_delay ms;
                                              aborts := controller |}];
                        controllers := controllers w;
                        console := console w |} s).

(** [clearTimeout(id)]; [undefined] is no timer. *)
Definition clearTimeout (id : option nat) : M (Frame L) unit :=
  match id with
  | Some h =>
      update_world (fun w =>
        {| clock := clock w; timers := set_nth h None (timers w);
           controllers := controllers w; console := console w |})
  | None => ret tt
  end.

(** When the upstream settles the request, if ever. *)
Definition settles_at (now : N) (o : FetchOutcome) : option N :=
  match o with
  | Responds latency _ => Some (now + latency)%N
  | Rejects latency _ => Some (now + latency)%N
  | Hangs => None
  end.

Definition deliver (o : FetchOutcome) : completion FetchResponse :=
  match o with
  | Responds _ r => Normal r
  | Rejects _ e => Throw e
  | Hangs => Throw AbortError
  end.

(** [await fetch(url, { method, headers, body, signal })].  With a signal,
    the fetch rejects with an [AbortError] as soon as the controller is
    aborted: at once when it already is, else when a timer aborts it no
    later than the upstream settles.  Without one it waits until [up]
    settles. *)
Definition fetch (up : Upstream) (req : WireRequest) (signal : option nat)
  : M (Frame L) FetchResponse :=
  fun s =>
    let w := world s in
    let o := up req in
    match signal with
    | None =>
        match settles_at (clock w) o with
        | Some t => Some (deliver o, with_world (advance t w) s)
        | None => None
        end
    | Some c =>
        if is_aborted c w then Some (Throw AbortError, s)
        else
          match abort_time c (timers w), settles_at (clock w) o with
          | Some d, Some t =>
              if (d <=? t)%N
              then Some (Throw AbortError, with_world (advance d w) s)
              else Some (deliver o, with_world (advance t w) s)
          | Some d, None =>
              Some (Throw AbortError, with_world (advance d w) s)
          | None, Some t => Some (deliver o, with_world (advance t w) s)
          | None, None => None
          end
    end.
End Host.

(** ** What the two variants share *)

(** The body [{ error: msg }] of an error response. *)
Definition error_body (msg : string) : value :=
  Obj [("error", Str msg)].

(** The request both variants send to OpenRouter: the second argument of
    their [fetch] call, without the signal. *)
Definition chat_request (env : Env) (apiKey : option string) (message : value)
  : WireRequest :=
  {| url := "https://openrouter.ai/api/v1/chat/completions";
     method := "POST";
     headers :=
       [("Authorization", Str ("Bearer " ++ template apiKey));
        ("Content-Type", Str "application/json");
        ("HTTP-Referer",
          or_else (env_value (APP_URL env)) (Str "http://localhost:3000"));
        ("X-Title", or_else (env_value (APP_NAME env)) (Str "FancyChat App"))];
     payload :=
       Obj [("model", Str "openai/gpt-3.5-turbo");
            ("messages", message);
            ("max_tokens", Num 1000%float);
            ("temperature", Num 0.7%float)] |}.

(** [data.choices.length === 0]; it is evaluated on arrays only. *)
Definition length_is_zero (v : value) : bool :=
  match v with
  | Arr items => Nat.eqb (length items) 0
  | _ => false
  end.

(** [GET], the same in both variants. *)
Definition GET : outcome Response :=
  NextResponse_json_init
    (error_body "Method not allowed. Use POST instead.") 405.

(** ** The timeout-aware variant *)

(** [timeoutId = id], on the one variable [let timeoutId] of [POST]. *)
Definition set_timeoutId (id : nat) : M (Frame (option nat)) unit :=
  fun fr => Some (Normal tt, {| world := world fr; locals := Some id |}).

Definition get_timeoutId : M (Frame (option nat)) (option nat) :=
  fun fr => Some (Normal (locals fr), fr).

(** [if (timeoutId)]: a timer handle of Node.js is an object, so it is
    truthy; the unassigned variable is [undefined]. *)
Definition handle_truthy (id : option nat) : bool :=
  match id with
  | Some _ => true
  | None => false
  end.

Definition createTimeoutController {L : Type} (timeoutMs : N)
  : M (Frame L) (nat * nat) :=
  controller <- new_AbortController ;;
  timeoutId <- setTimeout_abort controller timeoutMs ;;
  ret (controller, timeoutId).

(** [POST] of the timeout-aware variant, statement by statement.  Its one
    local variable that a [catch] reads after a [try] wrote it,
    [let timeoutId], is the local state of the frame. *)
Definition POST (env : Env) (up : Upstream) (request : Request)
  : M (Frame (option nat)) Empty_set :=
  try_catch
    (message <-
       try_catch
         (body <- await (request_json request) ;;
          get_prop body "message")
         (fun parseError =>
            console_error "JSON parse error:" (LogError parseError) ;;
            returning (NextResponse_json_init
                       (error_body "Invalid JSON in request body") 400)) ;;
     when_ (negb (truthy message) || negb (Array_isArray message))
       (returning (NextResponse_json_init
                   (error_body "Invalid request. Expected {message: []} in body")
                   400)) ;;
     let apiKey := OPENROUTER_API_KEY env in
     when_ (negb (truthy (env_value apiKey)))
       (returning (NextResponse_json_init
                   (error_body "OpenRouter API key not configured") 500)) ;;
     ' (controller, timeout) <- createTimeoutController 30000 ;;
     set_timeoutId timeout ;;
     openRouterResponse <-
       try_catch
         (fetch up (chat_request env apiKey message) (Some controller))
         (fun fetchError =>
            id <- get_timeoutId ;;
            clearTimeout id ;;
            when_ (err_name fetchError =? "AbortError")
              (console_error "Request timeout:" (LogError fetchError) ;;
               returning (NextResponse_json_init
                          (error_body "Request timed out. Please try again.")
                          408)) ;;
            when_ (code_is fetchError "ECONNREFUSED"
                   || code_is fetchError "ENOTFOUND")
              (console_error "Connection error:" (LogError fetchError) ;;
               returning (NextResponse_json_init
                          (error_body
                             "Unable to connect to AI service. Please try again later.")
                          503)) ;;
            when_ (code_is fetchError "ETIMEDOUT")
              (console_error "Connection timeout:" (LogError fetchError) ;;
               returning (NextResponse_json_init
                          (error_body "Connection timed out. Please try again.")
                          504)) ;;
            console_error "Network error:" (LogError fetchError) ;;
            returning (NextResponse_json_init
                       (error_body
                          "Network error occurred. Please check your connection and try again.")
                       502)) ;;
     id <- get_timeoutId ;;
     clearTimeout id ;;
     when_ (negb (ok openRouterResponse))
       (errorData <-
          try_catch
            (await (resp_text openRouterResponse))
            (fun textError => ret "Unable to read error response") ;;
        console_error "OpenRouter API error:"
          (LogUpstream (resp_status openRouterResponse)
                       (resp_statusText openRouterResponse) errorData) ;;
        when_ (resp_status openRouterResponse =? 401)%Z
          (returning (NextResponse_json_init
                      (error_body
                         "Invalid API key. Please check your configuration.")
                      401)) ;;
        when_ (resp_status openRouterResponse =? 429)%Z
          (returning (NextResponse_json_init
                      (error_body "Rate limit exceeded. Please try again later.")
                      429)) ;;
        when_ (500 <=? resp_status openRouterResponse)%Z
          (returning (NextResponse_json_init
                      (error_body
                         "AI service is temporarily unavailable. Please try again later.")
                      503)) ;;
        returning (NextResponse_json_init
                   (error_body "Failed to get response from AI service")
                   (resp_status openRouterResponse))) ;;
     data <-
       try_catch
         (await (resp_json openRouterResponse))
         (fun jsonError =>
            console_error "JSON parse error from OpenRouter:"
              (LogError jsonError) ;;
            returning (NextResponse_json_init
                       (error_body "Invalid response from AI service") 502)) ;;
     choices <- get_prop data "choices" ;;
     when_ (negb (truthy choices) || negb (Array_isArray choices)
            || length_is_zero choices)
       (console_error "Invalid response structure:" (LogData data) ;;
        returning (NextResponse_json_init
                   (error_body "Unexpected response format from AI service")
                   502)) ;;
     first <- get_index choices 0 ;;
     usage <- get_prop data "usage" ;;
     return_ (NextResponse_json
                (Obj [("success", Bool true);
                      ("response",
                        or_else (opt_prop (opt_prop first "message") "content")
                                (Str "No response generated"));
                      ("usage", usage)])))
    (fun error =>
       id <- get_timeoutId ;;
       when_ (handle_truthy id) (clearTimeout id) ;;
       console_error "Chat API error:" (LogError error) ;;
       when_ ((err_name error =? "TypeError")
              && includes (err_message error) "fetch")
         (returning (NextResponse_json_init
                     (error_body
                        "Network error. Please check your internet connection.")
                     502)) ;;
       when_ (err_name error =? "SyntaxError")
         (returning (NextResponse_json_init
                     (error_body "Invalid response format received.") 502)) ;;
       returning (NextResponse_json_init
                  (error_body "An unexpected error occurred. Please try again.")
                  500)).

(** One call of the handler in the host state [w]: how the promise settles
    and the host state it leaves. *)
Definition run_POST (env : Env) (up : Upstream) (request : Request) (w : World)
  : option (settled * World) :=
  match async_call (POST env up request) {| world := w; locals := None |} with
  | Some (r, fr) => Some (r, world fr)
  | None => None
  end.

(** ** The base variant ([route.js]) *)

Module Base.

(** [const { message } = await request.json()] reads the property as
    [body.message] does, and throws on [null] as it does; no deadline, no
    signal, one [try] around everything. *)
Definition POST (env : Env) (up : Upstream) (request : Request)
  : M (Frame unit) Empty_set :=
  try_catch
    (body <- await (request_json request) ;;
     message <- get_prop body "message" ;;
     when_ (negb (truthy message) || negb (Array_isArray message))
       (returning (NextResponse_json_init
                   (error_body
                      "Invalid request. Expected {message: []} in body")
                   400)) ;;
     let apiKey := OPENROUTER_API_KEY env in
     when_ (negb (truthy (env_value apiKey)))
       (returning (NextResponse_json_init
                   (error_body "OpenRouter API key not configured") 500)) ;;
     openRouterResponse <- fetch up (chat_request env apiKey message) None ;;
     when_ (negb (ok openRouterResponse))
       (errorData <- await (resp_text openRouterResponse) ;;
        console_error "OpenRouter API error:" (LogText errorData) ;;
        returning (NextResponse_json_init
                   (error_body "Failed to get response from AI service")
                   (resp_status openRouterResponse))) ;;
     data <- await (resp_json openRouterResponse) ;;
     choices <- get_prop data "choices" ;;
     first <- get_index choices 0 ;;
     usage <- get_prop data "usage" ;;
     return_ (NextResponse_json
                (Obj [("success", Bool true);
                      ("response",
                        or_else
                          (opt_prop (opt_prop first "message") "content")
                          (Str "No response generated"));
                      ("usage", usage)])))
    (fun error =>
       console_error "Chat API error:" (LogError error) ;;
       returning (NextResponse_json_init
                  (error_body "Internal server error") 500)).

Definition run_POST (env : Env) (up : Upstream) (request : Request)
                    (w : World)
  : option (settled * World) :=
  match async_call (POST env up request) {| world := w; locals := tt |} with
  | Some (r, fr) => Some (r, world fr)
  | None => None
  end.

End Base.

(** ** Notions used to state the properties *)

(** No pending timer aborts a controller that does not exist yet.  The
    empty host is well formed and the host's operations keep it so. *)
Definition well_formed (w : World) : bool :=
  forallb (fun slot =>
             match slot with
             | Some tm => Nat.ltb (aborts tm) (length (controllers w))
             | None => true
             end)
          (timers w).

(** The host after [createTimeoutController(ms)]: one more controller and
    one more pending timer, which aborts it. *)
Definition armed (ms : N) (w : World) : World :=
  {| clock := clock w;
     timers := timers w
               ++ [Some {| due := clock w + timer_delay ms;
                           aborts := length (controllers w) |}];
     controllers := controllers w ++ [false];
     console := console w |}.

(** No timer is pending at handle [n] or later. *)
Definition cleared_from (n : nat) (slots : list (option Timer)) : Prop :=
  forall k, nth (n + k) slots None = None.

(** The upstream has not settled the request [ms] milliseconds after it was
    sent. *)
Definition misses_deadline (ms : N) (o : FetchOutcome) : Prop :=
  match o with
  | Responds latency _ => (ms < latency)%N
  | Rejects latency _ => (ms < latency)%N
  | Hangs => True
  end.

(** The upstream replies on which the two variants take the same path: a
    non-success status that the timeout-aware variant does not map (not
    401, not 429, below 500) and that [NextResponse.json] accepts, with a
    readable body; or a success status with a JSON body whose [choices] is
    a non-empty array. *)
Definition answered_alike (r : FetchResponse) : Prop :=
  (ok r = false
   /\ resp_status r <> 401%Z /\ resp_status r <> 429%Z
   /\ (resp_status r < 500)%Z
   /\ accepts_status (resp_status r) = true
   /\ exists text, resp_text r = inr text)
  \/ (ok r = true
      /\ exists data first rest,
          resp_json r = inr data
          /\ own_prop data "choices" = Arr (first :: rest)).

(** The two shapes of a response: status 200 with the body
    [{ success: true, response, usage }] and a truthy [response], or a
    status outside 200-299 with the body [{ error: <string> }]. *)
Definition response_shape (res : Response) : Prop :=
  (status res = 200%Z
   /\ exists v u,
       body res = Obj [("success", Bool true); ("response", v); ("usage", u)]
       /\ truthy v = true)
  \/ (((status res < 200)%Z \/ (299 < status res)%Z)
      /\ exists msg, body res = Obj [("error", Str msg)]).

(** [k] occurs in a string or in a property name of [v]. *)
Fixpoint mentions (k : string) (v : value) : bool :=
  match v with
  | Str s => includes s k
  | Arr items => existsb (mentions k) items
  | Obj props =>
      existsb (fun p : string * value =>
                 let (name, x) := p in includes name k || mentions k x)
              props
  | _ => false
  end.

(** Every string literal the timeout-aware handler can put in a response:
    the property names and the messages. *)
Definition handler_literals : list string :=
  [ "error"; "success"; "response"; "usage";
    "Invalid JSON in request body";
    "Invalid request. Expected {message: []} in body";
    "OpenRouter API key not configured";
    "Request timed out. Please try again.";
    "Unable to connect to AI service. Please try again later.";
    "Connection timed out. Please try again.";
    "Network error occurred. Please check your connection and try again.";
    "Invalid API key. Please check your configuration.";
    "Rate limit exceeded. Please try again later.";
    "AI service is temporarily unavailable. Please try again later.";
    "Failed to get response from AI service";
    "Invalid response from AI service";
    "Unexpected response format from AI service";
    "No response generated";
    "Network error. Please check your internet connection.";
    "Invalid response format received.";
    "An unexpected error occurred. Please try again." ].

(** The error response with message [msg] and status [st]. *)
Definition error_response (msg : string) (st : Z) : Response :=
  {| status := st; body := error_body msg |}.

(** The success body both variants build from the parsed upstream reply. *)
Definition success_response (data : value) : Response :=
  NextResponse_json
    (Obj [("success", Bool true);
          ("response",
            or_else
              (opt_prop
                 (opt_prop (own_index (own_prop data "choices") 0) "message")
                 "content")
              (Str "No response generated"));
          ("usage", own_prop data "usage")]).

(** The response of [return NextResponse.json({ error: msg }, { status })]
    inside a [try] whose [catch] answers [fallback] when the call throws. *)
Definition relay (msg : string) (st : Z) (fallback : Response) : Response :=
  match NextResponse_json_init (error_body msg) st with
  | inr res => res
  | inl _ => fallback
  end.

(** *** The decisions of the timeout-aware handler, as a table

    [reply] lists, without the host, which response [POST] returns;
    [run_POST_reply] below proves that [POST] follows it. *)

Definition reply_to_failure (e : JsError) : Response :=
  if err_name e =? "AbortError"
  then error_response "Request timed out. Please try again." 408
  else if code_is e "ECONNREFUSED" || code_is e "ENOTFOUND"
  then error_response
         "Unable to connect to AI service. Please try again later." 503
  else if code_is e "ETIMEDOUT"
  then error_response "Connection timed out. Please try again." 504
  else error_response
         "Network error occurred. Please check your connection and try again."
         502.

Definition reply_to_response (r : FetchResponse) : Response :=
  if ok r then
    match resp_json r with
    | inl _ => error_response "Invalid response from AI service" 502
    | inr Undefined | inr Null =>
        error_response "An unexpected error occurred. Please try again." 500
    | inr data =>
        let choices := own_prop data "choices" in
        if negb (truthy choices) || negb (Array_isArray choices)
           || length_is_zero choices
        then error_response "Unexpected response format from AI service" 502
        else success_response data
    end
  else if (resp_status r =? 401)%Z
  then error_response "Invalid API key. Please check your configuration." 401
  else if (resp_status r =? 429)%Z
  then error_response "Rate limit exceeded. Please try again later." 429
  else if (500 <=? resp_status r)%Z
  then error_response
         "AI service is temporarily unavailable. Please try again later." 503
  else relay "Failed to get response from AI service" (resp_status r)
             (error_response
                "An unexpected error occurred. Please try again." 500).

Definition reply_to_outcome (o : FetchOutcome) : Response :=
  match o with
  | Responds latency r =>
      if (30000 <=? latency)%N then reply_to_failure AbortError
      else reply_to_response r
  | Rejects latency e =>
      if (30000 <=? latency)%N then reply_to_failure AbortError
      else reply_to_failure e
  | Hangs => reply_to_failure AbortError
  end.

Definition reply (env : Env) (up : Upstream) (request : Request) : Response :=
  match request_json request with
  | inl _ | inr Undefined | inr Null =>
      error_response "Invalid JSON in request body" 400
  | inr body =>
      let message := own_prop body "message" in
      if negb (truthy message) || negb (Array_isArray message)
      then error_response "Invalid request. Expected {message: []} in body" 400
      else if negb (truthy (env_value (OPENROUTER_API_KEY env)))
      then error_response "OpenRouter API key not configured" 500
      else reply_to_outcome
             (up (chat_request env (OPENROUTER_API_KEY env) message))
  end.

(** *** The decisions of the base handler, as a table

    [None] is a call that never settles: the base variant waits for the
    upstream without a deadline. *)

Definition base_reply_to_response (r : FetchResponse) : Response :=
  if ok r then
    match resp_json r with
    | inl _ | inr Undefined | inr Null =>
        error_response "Internal server error" 500
    | inr data =>
        match own_prop data "choices" with
        | Undefined | Null => error_response "Internal server error" 500
        | _ => success_response data
        end
    end
  else
    match resp_text r with
    | inl _ => error_response "Internal server error" 500
    | inr _ =>
        relay "Failed to get response from AI service" (resp_status r)
              (error_response "Internal server error" 500)
    end.

Definition base_reply (env : Env) (up : Upstream) (request : Request)
  : option Response :=
  match request_json request with
  | inl _ | inr Undefined | inr Null =>
      Some (error_response "Internal server error" 500)
  | inr body =>
      let message := own_prop body "message" in
      if negb (truthy message) || negb (Array_isArray message)
      then Some (error_response
                   "Invalid request. Expected {message: []} in body" 400)
      else if negb (truthy (env_value (OPENROUTER_API_KEY env)))
      then Some (error_response "OpenRouter API key not configured" 500)
      else
        match up (chat_request env (OPENROUTER_API_KEY env) message) with
        | Responds _ r => Some (base_reply_to_response r)
        | Rejects _ _ => Some (error_response "Internal server error" 500)
        | Hangs => None
        end
  end.

(** The configuration with the key replaced by [k]. *)
Definition with_key (env : Env) (k : string) : Env :=
  {| OPENROUTER_API_KEY := Some k;
     APP_URL := APP_URL env;
     APP_NAME := APP_NAME env |}.

(** ** Sample inputs *)

Module Sample.

Definition key : string := "sk-or-v1-0000".

Definition env : Env :=
  {| OPENROUTER_API_KEY := Some key; APP_URL := None; APP_NAME := None |}.

Definition env_without_key : Env :=
  {| OPENROUTER_API_KEY := None; APP_URL := None; APP_NAME := None |}.

Definition messages : list value :=
  [Obj [("role", Str "user"); ("content", Str "Hello")]].

Definition props : list (string * value) := [("message", Arr messages)].

(** [{"message":[{"role":"user","content":"Hello"}]}] *)
Definition request : Request := {| request_json := inr (Obj props) |}.

Definition SyntaxError : JsError :=
  {| err_name := "SyntaxError";
     err_message := "Unexpected token } in JSON at position 1";
     err_code := Undefined;
     err_cause := Undefined |}.

(** A request whose body is not JSON. *)
Definition garbled_request : Request :=
  {| request_json := inl SyntaxError |}.


(** An upstream reply with a JSON body. *)
Definition json_reply (data : value) : FetchResponse :=
  {| resp_status := 200; resp_statusText := "OK";
     resp_text := inr "(the JSON text)"; resp_json := inr data |}.

(** An upstream error reply with a text body. *)
Definition error_reply (st : Z) (text : string) : FetchResponse :=
  {| resp_status := st; resp_statusText := "";
     resp_text := inr text;
     resp_json := inl SyntaxError |}.

Definition usage : value := Obj [("total_tokens", Num 5%float)].

(** [{"choices":[{"message":{"content":c}}],"usage":{"total_tokens":5}}] *)
Definition completion_of (c : value) : value :=
  Obj [("choices", Arr [Obj [("message", Obj [("content", c)])]]);
       ("usage", usage)].

(** An upstream that answers every request with [r] after 120 ms. *)
Definition answering (r : FetchResponse) : Upstream :=
  fun _ => Responds 120 r.

(** A fetch that fails after 15 ms with an error that carries the code
    [c] itself. *)
Definition failing (name c : string) : Upstream :=
  fun _ => Rejects 15 {| err_name := name; err_message := "fetch failed";
                         err_code := Str c; err_cause := Undefined |}.

(** A fetch that fails after 15 ms as the fetch of Node.js reports the
    system error [c]. *)
Definition unreachable (c : string) : Upstream :=
  fun _ => Rejects 15 (fetch_failed c).

(** An upstream that knows the key it is called with and puts it in its
    answer, the same answer for every request. *)
Definition leaking : Upstream :=
  answering (json_reply (completion_of (Str key))).

Definition silent : Upstream := fun _ => Hangs.

(** A host in which another request is in flight. *)
Definition busy_world : World :=
  {| clock := 5000;
     timers := [None; Some {| due := 31000; aborts := 1 |}];
     controllers := [false; false];
     console := [("Network error:", LogText "earlier")] |}.

End Sample.

(** ** Proof tools *)

(** [NextResponse.json] with a status it accepts. *)
Lemma NextResponse_json_init_fixed (data : value) (st : Z) :
  accepts_status st = true ->
  NextResponse_json_init data st = inr {| status := st; body := data |}.
Proof.
  unfold accepts_status, NextResponse_json_init. intros Hacc.
  apply andb_true_iff in Hacc as [Hrange Hnull].
  apply negb_true_iff in Hrange, Hnull. now rewrite Hrange, Hnull.
Qed.

(** [NextResponse.json] with a status it refuses. *)
Lemma NextResponse_json_init_refused (data : value) (st : Z) :
  accepts_status st = false ->
  exists e, NextResponse_json_init data st = inl e.
Proof.
  unfold accepts_status, NextResponse_json_init.
  destruct ((st <? 200)%Z || (599 <? st)%Z); [now eexists|].
  destruct (null_body_status st); [now eexists | discriminate].
Qed.

(** The top-level [catch] of the timeout-aware handler recognises neither
    of the errors [NextResponse.json] throws: the name is not [SyntaxError],
    and the message of the [TypeError] does not include "fetch". *)
Lemma NextResponse_error_unrecognised (data : value) (st : Z) (e : JsError) :
  NextResponse_json_init data st = inl e ->
  (err_name e =? "TypeError") && includes (err_message e) "fetch" = false
  /\ (err_name e =? "SyntaxError") = false.
Proof.
  unfold NextResponse_json_init.
  destruct ((st <? 200)%Z || (599 <? st)%Z).
  { intros [= <-]. split; reflexivity. }
  destruct (null_body_status st) eqn:Hnull; [|discriminate].
  intros [= <-]. unfold null_body_status in Hnull.
  repeat (apply orb_true_iff in Hnull as [Hnull|Hnull]).
  all: apply Z.eqb_eq in Hnull; subst st; split; reflexivity.
Qed.

(** Unfold the monad and the host operations that do not depend on the
    timers; [createTimeoutController] and [fetch] are rewritten with the
    lemmas about them. *)
Ltac js_unfold :=
  cbv [async_call POST Base.POST try_catch bind ret return_ throw when_ await
       returning get_prop get_index console_error update_world
       clearTimeout set_timeoutId get_timeoutId handle_truthy];
  rewrite ?NextResponse_json_init_fixed by reflexivity;
  cbv beta iota.

Ltac js_simpl :=
  cbn [world locals with_world clock timers controllers console request_json
       truthy Array_isArray length_is_zero env_value negb orb andb];
  try change (timer_delay 30000) with 30000%N.

Ltac done_here := eexists; reflexivity.

Ltac split_on c := destruct c; js_simpl; try done_here.

Ltac failure_cases e :=
  unfold reply_to_failure;
  split_on (err_name e =? "AbortError");
  split_on (code_is e "ECONNREFUSED" || code_is e "ENOTFOUND");
  split_on (code_is e "ETIMEDOUT").

(** The call of [NextResponse.json] with the upstream's status: it returns,
    or it throws an error that the top-level [catch] does not recognise. *)
Ltac relay_cases :=
  unfold relay;
  match goal with
  | |- context [NextResponse_json_init ?d ?st] =>
      let e := fresh "e" in
      let res := fresh "res" in
      let Hnr := fresh "Hnr" in
      destruct (NextResponse_json_init d st) as [e|res] eqn:Hnr; js_simpl;
      [ let H1 := fresh in
        let H2 := fresh in
        destruct (NextResponse_error_unrecognised _ _ _ Hnr) as [H1 H2];
        try rewrite H1; try rewrite H2; js_simpl
      | ]
  end.

Ltac status_cases r :=
  destruct (resp_text r); js_simpl;
  split_on (resp_status r =? 401)%Z;
  split_on (resp_status r =? 429)%Z;
  split_on (500 <=? resp_status r)%Z;
  relay_cases; done_here.

(** ** The model on small inputs *)

Example truthy_zero : truthy (Num 0%float) = false.
Proof. reflexivity. Qed.

Example truthy_empty_string : truthy (Str "") = false.
Proof. reflexivity. Qed.

Example truthy_empty_array : truthy (Arr []) = true.
Proof. reflexivity. Qed.

Example includes_fetch : includes "fetch failed" "fetch" = true.
Proof. reflexivity. Qed.

Example own_index_string : own_index (Str "abc") 0 = Str "a".
Proof. reflexivity. Qed.

(** The example of the specification, on the timeout-aware variant: the
    deadline timer is created, the reply arrives after 120 ms, the timer is
    cleared. *)
Example POST_hi_there :
  run_POST Sample.env
           (Sample.answering
              (Sample.json_reply (Sample.completion_of (Str "Hi there"))))
           Sample.request world0 =
  Some (Resolved
          {| status := 200;
             body := Obj [("success", Bool true);
                          ("response", Str "Hi there");
                          ("usage", Sample.usage)] |},
        {| clock := 120; timers := [None]; controllers := [false];
           console := [] |}).
Proof. reflexivity. Qed.

(** An empty [choices] array: 502 in the timeout-aware variant, 200 with
    the placeholder in the base variant. *)
Example POST_empty_choices :
  option_map fst
    (run_POST Sample.env
              (Sample.answering (Sample.json_reply (Obj [("choices", Arr [])])))
              Sample.request world0) =
  Some (Resolved
          (error_response "Unexpected response format from AI service" 502)).
Proof. reflexivity. Qed.

Example base_POST_empty_choices :
  option_map fst
    (Base.run_POST Sample.env
                   (Sample.answering
                      (Sample.json_reply (Obj [("choices", Arr [])])))
                   Sample.request world0) =
  Some (Resolved
          {| status := 200;
             body := Obj [("success", Bool true);
                          ("response", Str "No response generated");
                          ("usage", Undefined)] |}).
Proof. reflexivity. Qed.

(** A silent upstream: the timeout-aware variant answers 408 at the
    deadline. *)
Example POST_silent_upstream :
  option_map fst
    (run_POST Sample.env Sample.silent Sample.request world0) =
  Some (Resolved (error_response "Request timed out. Please try again." 408)).
Proof. reflexivity. Qed.

(** [GET] answers 405. *)
Example GET_method_not_allowed :
  GET = inr {| status := 405;
               body := Obj [("error",
                             Str "Method not allowed. Use POST instead.")] |}.
Proof. reflexivity. Qed.

(** ** The host's timers and controllers *)

Lemma abort_time_stale (c : nat) (slots : list (option Timer)) (n : nat) :
  forallb (fun slot =>
             match slot with
             | Some tm => Nat.ltb (aborts tm) n
             | None => true
             end) slots = true ->
  n <= c ->
  abort_time c slots = None.
Proof.
  induction slots as [|[tm|] rest IH]; simpl; intros Hwf Hle; auto.
  apply andb_true_iff in Hwf as [Hlt Hrest].
  apply Nat.ltb_lt in Hlt.
  destruct (Nat.eqb_spec (aborts tm) c); [lia | auto].
Qed.

Lemma abort_time_last (c : nat) (slots : list (option Timer)) (d : N) :
  abort_time c slots = None ->
  abort_time c (slots ++ [Some {| due := d; aborts := c |}]) = Some d.
Proof.
  induction slots as [|[tm|] rest IH]; simpl; intros Hnone.
  - now rewrite Nat.eqb_refl.
  - destruct (Nat.eqb (aborts tm) c); [|auto].
    destruct (abort_time c rest); discriminate.
  - auto.
Qed.

Lemma abort_time_armed (c : nat) (slots : list (option Timer)) (d : N) :
  abort_time c (slots ++ [Some {| due := d; aborts := c |}]) <> None.
Proof.
  induction slots as [|[tm|] rest IH]; simpl.
  - rewrite Nat.eqb_refl. discriminate.
  - destruct (Nat.eqb (aborts tm) c); [|auto].
    destruct (abort_time c (rest ++ _)); discriminate.
  - auto.
Qed.

Lemma nth_fresh (cs : list bool) :
  nth (length cs) (cs ++ [false]) false = false.
Proof. induction cs; simpl; auto. Qed.

Lemma set_nth_length {A : Type} (i : nat) (x : A) (l : list A) :
  length (set_nth i x l) = length l.
Proof.
  revert i; induction l as [|y l IH]; intros [|i]; simpl; auto.
Qed.

Lemma nth_set_nth_same {A : Type} (i : nat) (x d : A) (l : list A) :
  i < length l -> nth i (set_nth i x l) d = x.
Proof.
  revert i; induction l as [|y l IH]; intros [|i]; simpl; intros Hi;
    try lia; auto.
  apply IH. lia.
Qed.

Lemma nth_set_nth_true (i j : nat) (cs : list bool) :
  nth j cs false = true -> nth j (set_nth i true cs) false = true.
Proof.
  revert i j; induction cs as [|b cs IH]; intros [|i] [|j]; simpl; auto.
Qed.

Lemma run_due_length (t : N) (slots : list (option Timer)) (cs : list bool) :
  length (run_due t slots cs) = length cs.
Proof.
  revert cs; induction slots as [|[tm|] rest IH]; intros cs; simpl; auto.
  rewrite IH. destruct (due tm <=? t)%N; auto using set_nth_length.
Qed.

Lemma run_due_keeps (t : N) (slots : list (option Timer)) (cs : list bool)
      (c : nat) :
  nth c cs false = true -> nth c (run_due t slots cs) false = true.
Proof.
  revert cs; induction slots as [|[tm|] rest IH]; intros cs Hc; simpl; auto.
  apply IH. destruct (due tm <=? t)%N; auto using nth_set_nth_true.
Qed.

Lemma run_due_app (t : N) (l1 l2 : list (option Timer)) (cs : list bool) :
  run_due t (l1 ++ l2) cs = run_due t l2 (run_due t l1 cs).
Proof.
  revert cs; induction l1 as [|slot l1 IH]; intros cs; simpl; auto.
Qed.

(** When the deadline timer is due, its callback aborts its controller. *)
Lemma run_due_fires (t d : N) (slots : list (option Timer)) (cs : list bool) :
  (d <= t)%N ->
  nth (length cs)
      (run_due t (slots ++ [Some {| due := d; aborts := length cs |}])
               (cs ++ [false]))
      false = true.
Proof.
  intros Hd. rewrite run_due_app. simpl.
  destruct (N.leb_spec d t); [|lia].
  apply nth_set_nth_same.
  rewrite run_due_length, length_app. simpl. lia.
Qed.

Lemma cleared_from_end (slots : list (option Timer)) :
  cleared_from (length slots) slots.
Proof.
  intros k. apply nth_overflow. lia.
Qed.

Lemma cleared_from_set_nth (n h : nat) (slots : list (option Timer)) :
  cleared_from n slots -> cleared_from n (set_nth h None slots).
Proof.
  intros Hc k. specialize (Hc k). revert Hc. generalize (n + k) as i.
  revert h; induction slots as [|slot rest IH]; intros [|h] [|i]; simpl; auto.
Qed.

Lemma cleared_from_last (n : nat) (slots : list (option Timer)) :
  length slots = S n -> cleared_from n (set_nth n None slots).
Proof.
  intros Hlen k. destruct k as [|k].
  - rewrite Nat.add_0_r. apply nth_set_nth_same. lia.
  - apply nth_overflow. rewrite set_nth_length. lia.
Qed.

Lemma armed_timers_length (ms : N) (w : World) :
  length (timers (armed ms w)) = S (length (timers w)).
Proof.
  unfold armed; cbn [timers]. rewrite length_app. simpl. lia.
Qed.

Lemma advance_timers_length (t : N) (w : World) :
  length (timers (advance t w)) = length (timers w).
Proof.
  unfold advance; cbn [timers]. apply length_map.
Qed.

(** The deadline timer is pending once it is armed. *)
Lemma armed_is_pending (ms : N) (w : World) :
  is_pending (length (timers w)) (armed ms w) = true.
Proof.
  unfold is_pending, armed; cbn [timers].
  rewrite app_nth2, Nat.sub_diag by lia. reflexivity.
Qed.

Lemma createTimeoutController_run {L : Type} (ms : N) (fr : Frame L) :
  createTimeoutController ms fr =
  Some (Normal (length (controllers (world fr)), length (timers (world fr))),
        with_world (armed ms (world fr)) fr).
Proof. reflexivity. Qed.

(** The fetch under a fresh deadline, in a well-formed host: the upstream's
    answer if it comes before the deadline, an abort at the deadline
    otherwise. *)
Lemma fetch_armed {L : Type} (up : Upstream) (req : WireRequest) (w : World)
      (ms : N) (vars : L) :
  well_formed w = true ->
  fetch up req (Some (length (controllers w)))
        {| world := armed ms w; locals := vars |} =
  Some (match up req with
        | Responds lat r =>
            if (timer_delay ms <=? lat)%N
            then (Throw AbortError,
                  {| world := advance (clock w + timer_delay ms) (armed ms w);
                     locals := vars |})
            else (Normal r,
                  {| world := advance (clock w + lat) (armed ms w);
                     locals := vars |})
        | Rejects lat e =>
            if (timer_delay ms <=? lat)%N
            then (Throw AbortError,
                  {| world := advance (clock w + timer_delay ms) (armed ms w);
                     locals := vars |})
            else (Throw e,
                  {| world := advance (clock w + lat) (armed ms w);
                     locals := vars |})
        | Hangs =>
            (Throw AbortError,
             {| world := advance (clock w + timer_delay ms) (armed ms w);
                locals := vars |})
        end).
Proof.
  intros Hwf. unfold fetch, is_aborted.
  cbn [world locals with_world armed controllers timers clock].
  rewrite nth_fresh.
  rewrite (abort_time_last _ _ _ (abort_time_stale _ _ _ Hwf (le_n _))).
  destruct (up req) as [lat r|lat e|]; cbn [settles_at deliver]; auto.
  all: replace (clock w + timer_delay ms <=? clock w + lat)%N
         with (timer_delay ms <=? lat)%N;
    [destruct (timer_delay ms <=? lat)%N; reflexivity|].
  all: destruct (N.leb_spec (timer_delay ms) lat),
         (N.leb_spec (clock w + timer_delay ms) (clock w + lat)); auto; lia.
Qed.

(** The same for the deadline of the handler, 30 seconds. *)
Lemma fetch_deadline {L : Type} (up : Upstream) (req : WireRequest)
      (w : World) (vars : L) :
  well_formed w = true ->
  fetch up req (Some (length (controllers w)))
        {| world := armed 30000 w; locals := vars |} =
  Some (match up req with
        | Responds lat r =>
            if (30000 <=? lat)%N
            then (Throw AbortError,
                  {| world := advance (clock w + 30000) (armed 30000 w);
                     locals := vars |})
            else (Normal r,
                  {| world := advance (clock w + lat) (armed 30000 w);
                     locals := vars |})
        | Rejects lat e =>
            if (30000 <=? lat)%N
            then (Throw AbortError,
                  {| world := advance (clock w + 30000) (armed 30000 w);
                     locals := vars |})
            else (Throw e,
                  {| world := advance (clock w + lat) (armed 30000 w);
                     locals := vars |})
        | Hangs =>
            (Throw AbortError,
             {| world := advance (clock w + 30000) (armed 30000 w);
                locals := vars |})
        end).
Proof. exact (fetch_armed up req w 30000 vars). Qed.

(** In any host, the fetch under a deadline settles, and it leaves the
    timers as they were or fires some of them. *)
Lemma fetch_armed_settles {L : Type} (up : Upstream) (req : WireRequest)
      (w : World) (ms : N) (vars : L) :
  exists c w',
    fetch up req (Some (length (controllers w)))
          {| world := armed ms w; locals := vars |} =
    Some (c, {| world := w'; locals := vars |})
    /\ length (timers w') = S (length (timers w))
    /\ forall r, c <> Return r.
Proof.
  unfold fetch. cbn [world locals with_world].
  destruct (is_aborted _ _).
  { eexists _, _. split; [reflexivity|].
    split; [apply armed_timers_length | discriminate]. }
  destruct (abort_time _ (timers (armed ms w))) as [d|] eqn:Hd.
  2: { exfalso. revert Hd. apply abort_time_armed. }
  destruct (up req) as [lat r|lat e|]; cbn [settles_at deliver].
  1-2: destruct (d <=? _)%N.
  all: eexists _, _; split; [reflexivity|].
  all: rewrite advance_timers_length, armed_timers_length.
  all: split; [reflexivity | discriminate].
Qed.

(** ** The handlers follow their tables *)

(** In a well-formed host the timeout-aware handler always settles, by
    resolving, with the response [reply] lists. *)
Lemma run_POST_reply (env : Env) (up : Upstream) (request : Request)
      (w : World) :
  well_formed w = true ->
  exists w',
    run_POST env up request w = Some (Resolved (reply env up request), w').
Proof.
  intros Hwf. unfold run_POST, reply. js_unfold.
  destruct request as [[e|body]]; js_simpl; [done_here|].
  destruct body; js_simpl; try done_here.
  all: match goal with
       | |- context [own_prop ?b "message"] =>
           set (message := own_prop b "message")
       end.
  all: split_on (negb (truthy message) || negb (Array_isArray message)).
  all: split_on (negb (truthy (env_value (OPENROUTER_API_KEY env)))).
  all: rewrite createTimeoutController_run; js_simpl.
  all: rewrite (fetch_deadline _ _ _ _ Hwf).
  all: unfold reply_to_outcome.
  all: destruct (up _) as [lat r|lat e|]; [| |done_here].
  all: split_on (30000 <=? lat)%N.
  all: try solve [failure_cases e].
  all: unfold reply_to_response.
  all: destruct (ok r); js_simpl; [|solve [status_cases r]].
  all: destruct (resp_json r) as [e|data]; js_simpl; try done_here.
  all: destruct data; js_simpl; try done_here.
  all: unfold success_response.
  all: match goal with
       | |- context [own_prop ?b "choices"] =>
           generalize (own_prop b "choices"); intros choices
       end.
  all: destruct (truthy choices); js_simpl; try done_here.
  all: destruct choices as [| | | | |items|]; js_simpl; try done_here.
  all: destruct items; js_simpl; done_here.
Qed.

(** The base handler resolves with the response [base_reply] lists, or
    never settles when the upstream never answers. *)
Lemma run_base_reply (env : Env) (up : Upstream) (request : Request)
      (w : World) :
  option_map fst (Base.run_POST env up request w) =
  option_map Resolved (base_reply env up request).
Proof.
  unfold Base.run_POST, base_reply. js_unfold.
  destruct request as [[e|body]]; js_simpl; [reflexivity|].
  destruct body; js_simpl; try reflexivity.
  all: match goal with
       | |- context [own_prop ?b "message"] =>
           set (message := own_prop b "message")
       end.
  all: destruct (negb (truthy message) || negb (Array_isArray message));
    js_simpl; try reflexivity.
  all: destruct (negb (truthy (env_value (OPENROUTER_API_KEY env))));
    js_simpl; try reflexivity.
  all: unfold fetch; js_simpl.
  all: destruct (up _) as [lat r|lat e|]; cbn [settles_at deliver];
    js_simpl; try reflexivity.
  all: unfold base_reply_to_response.
  all: destruct (ok r); js_simpl;
    [|destruct (resp_text r); js_simpl; try reflexivity;
      unfold relay; destruct (NextResponse_json_init _ _); reflexivity].
  all: destruct (resp_json r) as [e|data]; js_simpl; try reflexivity.
  all: destruct data; js_simpl; try reflexivity.
  all: unfold success_response.
  all: match goal with
       | |- context [own_prop ?b "choices"] =>
           destruct (own_prop b "choices")
       end; reflexivity.
Qed.

(** ** Well-formed hosts *)

(** The empty host is well formed, and a call of the handler leaves a
    well-formed host well formed: the hypothesis [well_formed] of the
    properties below holds of every host that calls of the handler lead
    to. *)
Lemma world0_well_formed : well_formed world0 = true.
Proof. reflexivity. Qed.

Lemma well_formed_cleared (h : nat) (c : N) (slots : list (option Timer))
      (cs : list bool) (out : list (string * LogPayload)) :
  well_formed {| clock := 0; timers := slots; controllers := cs;
                 console := [] |} = true ->
  well_formed {| clock := c; timers := set_nth h None slots;
                 controllers := cs; console := out |} = true.
Proof.
  unfold well_formed; cbn [timers controllers].
  generalize (length cs) as n. intros n. revert h.
  induction slots as [|slot rest IH]; intros [|h]; simpl; auto.
  - intros Hwf. apply andb_true_iff in Hwf as [_ Hrest]. exact Hrest.
  - intros Hwf. apply andb_true_iff in Hwf as [Hslot Hrest].
    rewrite Hslot. cbn [andb]. now apply IH.
Qed.

Lemma well_formed_armed (ms : N) (w : World) :
  well_formed w = true -> well_formed (armed ms w) = true.
Proof.
  unfold well_formed, armed; cbn [timers controllers].
  rewrite forallb_app, length_app. cbn [forallb aborts length].
  intros Hwf. apply andb_true_iff. split.
  - rewrite forallb_forall in *. intros [tm|] Hin; [|reflexivity].
    specialize (Hwf _ Hin). cbn in Hwf. apply Nat.ltb_lt in Hwf.
    apply Nat.ltb_lt. lia.
  - rewrite andb_true_r. apply Nat.ltb_lt. lia.
Qed.

Lemma well_formed_advance (t : N) (w : World) :
  well_formed w = true -> well_formed (advance t w) = true.
Proof.
  unfold well_formed, advance; cbn [timers controllers].
  rewrite run_due_length. generalize (length (controllers w)) as n.
  intros n. induction (timers w) as [|slot rest IH]; simpl; auto.
  intros Hwf. apply andb_true_iff in Hwf as [Hslot Hrest].
  rewrite (IH Hrest), andb_true_r.
  destruct slot as [tm|]; [|reflexivity].
  cbn [is_due]. destruct (due tm <=? t)%N; [reflexivity | exact Hslot].
Qed.

(** A call of the handler keeps the host well formed. *)
Lemma run_POST_keeps_well_formed (env : Env) (up : Upstream)
      (request : Request) (w : World) (o : settled) (w' : World) :
  well_formed w = true ->
  run_POST env up request w = Some (o, w') ->
  well_formed w' = true.
Proof.
  intros Hwf. unfold run_POST. js_unfold.
  assert (Harmed : forall t, well_formed (advance t (armed 30000 w)) = true).
  { intros t. now apply well_formed_advance, well_formed_armed. }
  destruct request as [[e|body]]; js_simpl.
  { intros [= <- <-]. exact Hwf. }
  destruct body; js_simpl; try (intros [= <- <-]; exact Hwf).
  all: match goal with
       | |- context [own_prop ?b "message"] =>
           set (message := own_prop b "message")
       end.
  all: destruct (negb (truthy message) || negb (Array_isArray message));
    js_simpl; [intros [= <- <-]; exact Hwf|].
  all: destruct (negb (truthy (env_value (OPENROUTER_API_KEY env))));
    js_simpl; [intros [= <- <-]; exact Hwf|].
  all: rewrite createTimeoutController_run; js_simpl.
  all: rewrite (fetch_deadline _ _ _ _ Hwf).
  all: destruct (up _) as [lat r|lat e|]; try destruct (30000 <=? lat)%N;
    js_simpl.
  all: match goal with
       | |- context [advance ?t (armed 30000 ?w0)] =>
           generalize (Harmed t); generalize (advance t (armed 30000 w0));
           intros w1 Hw1
       end.
  all: repeat first
         [ solve [ intros [= <- <-];
                   repeat apply well_formed_cleared; exact Hw1 ]
         | match goal with
           | |- context [if ?c then _ else _] => destruct c; js_simpl
           | |- context [match resp_text ?r with _ => _ end] =>
               destruct (resp_text r); js_simpl
           | |- context [match resp_json ?r with _ => _ end] =>
               destruct (resp_json r) as [?|[]]; js_simpl
           | |- context [match own_prop ?d ?k with _ => _ end] =>
               destruct (own_prop d k); js_simpl
           | |- context [match NextResponse_json_init ?d ?st with _ => _ end] =>
               destruct (NextResponse_json_init d st); js_simpl
           end ].
Qed.

(** ** Auxiliary facts about the tables *)

Lemma option_map_fst_some {A B : Type} (o : option (A * B)) (a : A) :
  option_map fst o = Some a -> exists b, o = Some (a, b).
Proof.
  destruct o as [[a' b]|]; simpl; intros Heq; [|discriminate].
  injection Heq as ->. now exists b.
Qed.

Lemma truthy_nonempty (s : string) : s <> "" -> truthy (Str s) = true.
Proof.
  intros Hs. simpl. now destruct (String.eqb_spec s "").
Qed.

(** A request with an array [message] and a configured key reaches the
    upstream. *)
Lemma reply_dispatch (env : Env) (up : Upstream) (request : Request)
      (props : list (string * value)) (msgs : list value) (key : string) :
  request_json request = inr (Obj props) ->
  lookup "message" props = Some (Arr msgs) ->
  OPENROUTER_API_KEY env = Some key ->
  key <> "" ->
  reply env up request =
  reply_to_outcome (up (chat_request env (Some key) (Arr msgs))).
Proof.
  intros Hreq Hmsg Hkey Hne. unfold reply.
  rewrite Hreq. cbn [own_prop]. rewrite Hmsg, Hkey.
  cbn [env_value]. rewrite (truthy_nonempty _ Hne). reflexivity.
Qed.

Lemma base_reply_dispatch (env : Env) (up : Upstream) (request : Request)
      (props : list (string * value)) (msgs : list value) (key : string)
      (lat : N) (r : FetchResponse) :
  request_json request = inr (Obj props) ->
  lookup "message" props = Some (Arr msgs) ->
  OPENROUTER_API_KEY env = Some key ->
  key <> "" ->
  up (chat_request env (Some key) (Arr msgs)) = Responds lat r ->
  base_reply env up request = Some (base_reply_to_response r).
Proof.
  intros Hreq Hmsg Hkey Hne Hup. unfold base_reply.
  rewrite Hreq. cbn [own_prop]. rewrite Hmsg, Hkey.
  cbn [env_value]. rewrite (truthy_nonempty _ Hne). cbn [truthy negb orb
  Array_isArray]. now rewrite Hup.
Qed.

Lemma in_time (lat : N) : (lat < 30000)%N -> (30000 <=? lat)%N = false.
Proof. intros H. apply N.leb_gt. exact H. Qed.

(** The response to a parsed reply with a non-empty [choices] array. *)
Lemma reply_to_completion (r : FetchResponse) (data first : value)
      (rest : list value) :
  ok r = true ->
  resp_json r = inr data ->
  own_prop data "choices" = Arr (first :: rest) ->
  reply_to_response r = success_response data
  /\ base_reply_to_response r = success_response data.
Proof.
  intros Hok Hjson Hch. unfold reply_to_response, base_reply_to_response.
  rewrite Hok, Hjson.
  destruct data; cbn [own_prop] in Hch; try discriminate.
  cbn [own_prop]. rewrite Hch. split; reflexivity.
Qed.

(** ** Successful completions *)

(** C1, as the claim states it, is false: it says that the [response] field
    equals [choices[0].message.content] whenever that field is present.
    For the reply [{"choices":[{"message":{"content":""}}],"usage":...}] the
    field is present, and the handler answers ["No response generated"]. *)
Lemma C1_present_but_empty_content :
  ~ (forall (env : Env) (up : Upstream) (request : Request) (w : World)
            (props : list (string * value)) (msgs : list value)
            (key : string) (lat : N) (r : FetchResponse) (data : value)
            (rest : list value) (fprops mprops : list (string * value))
            (content : value),
        well_formed w = true ->
        request_json request = inr (Obj props) ->
        lookup "message" props = Some (Arr msgs) ->
        OPENROUTER_API_KEY env = Some key ->
        key <> "" ->
        up (chat_request env (Some key) (Arr msgs)) = Responds lat r ->
        (lat < 30000)%N ->
        ok r = true ->
        resp_json r = inr data ->
        own_prop data "choices" = Arr (Obj fprops :: rest) ->
        lookup "message" fprops = Some (Obj mprops) ->
        lookup "content" mprops = Some content ->
        exists w',
          run_POST env up request w =
          Some (Resolved
                  (NextResponse_json
                     (Obj [("success", Bool true);
                           ("response", content);
                           ("usage", own_prop data "usage")])),
                w')).
Proof.
  intros Hclaim.
  destruct (Hclaim Sample.env
                   (Sample.answering
                      (Sample.json_reply (Sample.completion_of (Str ""))))
                   Sample.request world0 Sample.props Sample.messages
                   Sample.key 120%N
                   (Sample.json_reply (Sample.completion_of (Str "")))
                   (Sample.completion_of (Str "")) []
                   [("message", Obj [("content", Str "")])]
                   [("content", Str "")] (Str ""))
    as [w' Hrun]; try reflexivity.
  - discriminate.
  - vm_compute in Hrun. discriminate.
Qed.

(** C1, amended.  For a request with an array [message], a configured key
    and an upstream that answers (in the timeout-aware variant: before the
    deadline) with a success status and a JSON body whose [choices] is a
    non-empty array, both variants return status 200 with the body
    [{ success: true, response, usage }], where [response] is
    [choices[0]?.message?.content] when that value is truthy and the literal
    ["No response generated"] when it is absent or falsy, and [usage] is
    the reply's [usage], unchanged. *)
Theorem C1_success_response
        (env : Env) (up : Upstream) (request : Request) (w : World)
        (props : list (string * value)) (msgs : list value) (key : string)
        (lat : N) (r : FetchResponse) (data first : value)
        (rest : list value) :
  well_formed w = true ->
  request_json request = inr (Obj props) ->
  lookup "message" props = Some (Arr msgs) ->
  OPENROUTER_API_KEY env = Some key ->
  key <> "" ->
  up (chat_request env (Some key) (Arr msgs)) = Responds lat r ->
  (lat < 30000)%N ->
  ok r = true ->
  resp_json r = inr data ->
  own_prop data "choices" = Arr (first :: rest) ->
  let content := opt_prop (opt_prop first "message") "content" in
  let answer :=
    {| status := 200;
       body := Obj [("success", Bool true);
                    ("response",
                      if truthy content then content
                      else Str "No response generated");
                    ("usage", own_prop data "usage")] |} in
  (exists w', run_POST env up request w = Some (Resolved answer, w'))
  /\ (exists w', Base.run_POST env up request w = Some (Resolved answer, w')).
Proof.
  intros Hwf Hreq Hmsg Hkey Hne Hup Hlat Hok Hjson Hch content answer.
  destruct (reply_to_completion r data first rest Hok Hjson Hch)
    as [Hpost Hbase].
  assert (Hanswer : success_response data = answer).
  { unfold success_response, answer, content. rewrite Hch. reflexivity. }
  split.
  - destruct (run_POST_reply env up request w Hwf) as [w' Hrun].
    exists w'. rewrite Hrun.
    rewrite (reply_dispatch env up request props msgs key Hreq Hmsg Hkey Hne).
    rewrite Hup. cbn [reply_to_outcome]. rewrite (in_time lat Hlat).
    now rewrite Hpost, Hanswer.
  - apply option_map_fst_some. rewrite run_base_reply.
    rewrite (base_reply_dispatch env up request props msgs key lat r
               Hreq Hmsg Hkey Hne Hup).
    cbn [option_map]. now rewrite Hbase, Hanswer.
Qed.

(** The example of the specification: the content ["Hi there"] and the
    usage [{"total_tokens":5}] come back as they are, in both variants. *)
Lemma C1_success_response_witness :
  let answer :=
    {| status := 200;
       body := Obj [("success", Bool true);
                    ("response", Str "Hi there");
                    ("usage", Sample.usage)] |} in
  let up := Sample.answering
              (Sample.json_reply (Sample.completion_of (Str "Hi there"))) in
  (exists w',
      run_POST Sample.env up Sample.request world0
      = Some (Resolved answer, w'))
  /\ (exists w',
         Base.run_POST Sample.env up Sample.request world0
         = Some (Resolved answer, w')).
Proof.
  apply (C1_success_response
           Sample.env
           (Sample.answering
              (Sample.json_reply (Sample.completion_of (Str "Hi there"))))
           Sample.request world0 Sample.props Sample.messages Sample.key
           120%N (Sample.json_reply (Sample.completion_of (Str "Hi there")))
           (Sample.completion_of (Str "Hi there"))
           (Obj [("message", Obj [("content", Str "Hi there")])]) []);
    try reflexivity.
  discriminate.
Defined.

(** ** Upstream errors *)

(** C2, as the claim states it, is false in two places.  An upstream 304
    is a non-2xx status other than 401, 429 and those from 500 on, and the
    timeout-aware handler does not answer 304: [NextResponse.json] throws
    for a status that allows no body, and the top-level [catch] answers
    500.  And the base variant, which the claim cites too, maps no status:
    it answers an upstream 401 with the generic message, not with the
    invalid-API-key message. *)
Lemma C2_status_304_and_base_401 :
  ~ (forall (env : Env) (up : Upstream) (request : Request) (w : World)
            (props : list (string * value)) (msgs : list value)
            (key : string) (lat : N) (r : FetchResponse),
        well_formed w = true ->
        request_json request = inr (Obj props) ->
        lookup "message" props = Some (Arr msgs) ->
        OPENROUTER_API_KEY env = Some key ->
        key <> "" ->
        up (chat_request env (Some key) (Arr msgs)) = Responds lat r ->
        (lat < 30000)%N ->
        ok r = false ->
        resp_status r <> 401%Z -> resp_status r <> 429%Z ->
        (resp_status r < 500)%Z ->
        exists w',
          run_POST env up request w =
          Some (Resolved
                  {| status := resp_status r;
                     body := Obj [("error",
                                   Str "Failed to get response from AI service")] |},
                w'))
  /\ ~ (forall (env : Env) (up : Upstream) (request : Request) (w : World)
               (props : list (string * value)) (msgs : list value)
               (key : string) (lat : N) (r : FetchResponse),
           request_json request = inr (Obj props) ->
           lookup "message" props = Some (Arr msgs) ->
           OPENROUTER_API_KEY env = Some key ->
           key <> "" ->
           up (chat_request env (Some key) (Arr msgs)) = Responds lat r ->
           ok r = false ->
           resp_status r = 401%Z ->
           exists w',
             Base.run_POST env up request w =
             Some (Resolved
                     {| status := 401;
                        body := Obj [("error",
                                      Str "Invalid API key. Please check your configuration.")] |},
                   w')).
Proof.
  assert (Hne : Sample.key <> "") by discriminate.
  split; intros Hclaim.
  - destruct (Hclaim Sample.env
                     (Sample.answering (Sample.error_reply 304 ""))
                     Sample.request world0 Sample.props Sample.messages
                     Sample.key 120%N (Sample.error_reply 304 "")
                     eq_refl eq_refl eq_refl eq_refl Hne eq_refl eq_refl
                     eq_refl)
      as [w' Hrun]; [discriminate | discriminate | reflexivity |].
    vm_compute in Hrun. discriminate.
  - destruct (Hclaim Sample.env
                     (Sample.answering (Sample.error_reply 401 "No auth"))
                     Sample.request world0 Sample.props Sample.messages
                     Sample.key 120%N (Sample.error_reply 401 "No auth")
                     eq_refl eq_refl eq_refl Hne eq_refl eq_refl eq_refl)
      as [w' Hrun].
    vm_compute in Hrun. discriminate.
Qed.

(** C2, amended.  When the upstream answers before the deadline with a
    non-success status, the timeout-aware handler maps 401 to 401 with the
    invalid-API-key message, 429 to 429 with the rate-limit message, every
    status from 500 on to 503 with the service-unavailable message, and
    every other status that [NextResponse.json] accepts (a status in
    200-599 that allows a body) to itself with the generic message.  The
    base variant maps nothing: when the error body can be read, it returns
    every non-success status that [NextResponse.json] accepts, 401 and 429
    included, as it is with the generic message.  The responses are the
    same whatever the upstream's error body is: nothing of it is relayed. *)
Theorem C2_upstream_error_mapping
        (env : Env) (up : Upstream) (request : Request) (w : World)
        (props : list (string * value)) (msgs : list value) (key : string)
        (lat : N) (r : FetchResponse) :
  well_formed w = true ->
  request_json request = inr (Obj props) ->
  lookup "message" props = Some (Arr msgs) ->
  OPENROUTER_API_KEY env = Some key ->
  key <> "" ->
  up (chat_request env (Some key) (Arr msgs)) = Responds lat r ->
  (lat < 30000)%N ->
  ok r = false ->
  (resp_status r = 401%Z ->
   exists w',
     run_POST env up request w =
     Some (Resolved
             {| status := 401;
                body := Obj [("error",
                              Str "Invalid API key. Please check your configuration.")] |},
           w'))
  /\ (resp_status r = 429%Z ->
      exists w',
        run_POST env up request w =
        Some (Resolved
                {| status := 429;
                   body := Obj [("error",
                                 Str "Rate limit exceeded. Please try again later.")] |},
              w'))
  /\ ((500 <= resp_status r)%Z ->
      exists w',
        run_POST env up request w =
        Some (Resolved
                {| status := 503;
                   body := Obj [("error",
                                 Str "AI service is temporarily unavailable. Please try again later.")] |},
              w'))
  /\ (resp_status r <> 401%Z -> resp_status r <> 429%Z ->
      (resp_status r < 500)%Z ->
      accepts_status (resp_status r) = true ->
      exists w',
        run_POST env up request w =
        Some (Resolved
                {| status := resp_status r;
                   body := Obj [("error",
                                 Str "Failed to get response from AI service")] |},
              w'))
  /\ (forall text,
         resp_text r = inr text ->
         accepts_status (resp_status r) = true ->
         exists w',
           Base.run_POST env up request w =
           Some (Resolved
                   {| status := resp_status r;
                      body := Obj [("error",
                                    Str "Failed to get response from AI service")] |},
                 w')).
Proof.
  intros Hwf Hreq Hmsg Hkey Hne Hup Hlat Hok.
  destruct (run_POST_reply env up request w Hwf) as [w' Hrun].
  rewrite Hrun.
  rewrite (reply_dispatch env up request props msgs key Hreq Hmsg Hkey Hne).
  rewrite Hup. cbn [reply_to_outcome]. rewrite (in_time lat Hlat).
  unfold reply_to_response. rewrite Hok.
  repeat apply conj.
  - intros ->. exists w'. reflexivity.
  - intros ->. exists w'. reflexivity.
  - intros Hst. exists w'.
    destruct (Z.eqb_spec (resp_status r) 401) as [H1|_].
    { rewrite H1 in Hst. lia. }
    destruct (Z.eqb_spec (resp_status r) 429) as [H2|_].
    { rewrite H2 in Hst. lia. }
    destruct (Z.leb_spec 500 (resp_status r)); [reflexivity | lia].
  - intros H1 H2 Hst Hacc. exists w'.
    destruct (Z.eqb_spec (resp_status r) 401); [contradiction|].
    destruct (Z.eqb_spec (resp_status r) 429); [contradiction|].
    destruct (Z.leb_spec 500 (resp_status r)); [lia|].
    unfold relay. now rewrite (NextResponse_json_init_fixed _ _ Hacc).
  - intros text Htext Hacc. apply option_map_fst_some.
    rewrite run_base_reply.
    rewrite (base_reply_dispatch env up request props msgs key lat r
               Hreq Hmsg Hkey Hne Hup).
    unfold base_reply_to_response, relay.
    now rewrite Hok, Htext, (NextResponse_json_init_fixed _ _ Hacc).
Qed.

(** The rows of the mapping, on upstream statuses 401, 429, 502 and 418,
    and the base variant on 401. *)
Lemma C2_upstream_error_mapping_witness :
  (exists w',
      run_POST Sample.env
               (Sample.answering (Sample.error_reply 401 "No auth"))
               Sample.request world0 =
      Some (Resolved
              (error_response
                 "Invalid API key. Please check your configuration." 401),
            w'))
  /\ (exists w',
         run_POST Sample.env
                  (Sample.answering (Sample.error_reply 429 "Slow down"))
                  Sample.request world0 =
         Some (Resolved
                 (error_response
                    "Rate limit exceeded. Please try again later." 429),
               w'))
  /\ (exists w',
         run_POST Sample.env
                  (Sample.answering (Sample.error_reply 502 "Bad gateway"))
                  Sample.request world0 =
         Some (Resolved
                 (error_response
                    "AI service is temporarily unavailable. Please try again later."
                    503),
               w'))
  /\ (exists w',
         run_POST Sample.env
                  (Sample.answering (Sample.error_reply 418 "I am a teapot"))
                  Sample.request world0 =
         Some (Resolved
                 (error_response "Failed to get response from AI service" 418),
               w'))
  /\ (exists w',
         Base.run_POST Sample.env
                       (Sample.answering (Sample.error_reply 401 "No auth"))
                       Sample.request world0 =
         Some (Resolved
                 (error_response "Failed to get response from AI service" 401),
               w')).
Proof.
  assert (Hne : Sample.key <> "") by discriminate.
  repeat apply conj.
  - apply (C2_upstream_error_mapping
             Sample.env (Sample.answering (Sample.error_reply 401 "No auth"))
             Sample.request world0 Sample.props Sample.messages Sample.key
             120%N (Sample.error_reply 401 "No auth")
             eq_refl eq_refl eq_refl eq_refl Hne eq_refl eq_refl eq_refl).
    reflexivity.
  - apply (C2_upstream_error_mapping
             Sample.env (Sample.answering (Sample.error_reply 429 "Slow down"))
             Sample.request world0 Sample.props Sample.messages Sample.key
             120%N (Sample.error_reply 429 "Slow down")
             eq_refl eq_refl eq_refl eq_refl Hne eq_refl eq_refl eq_refl).
    reflexivity.
  - refine (proj1 (proj2 (proj2 (C2_upstream_error_mapping
             Sample.env
             (Sample.answering (Sample.error_reply 502 "Bad gateway"))
             Sample.request world0 Sample.props Sample.messages Sample.key
             120%N (Sample.error_reply 502 "Bad gateway")
             eq_refl eq_refl eq_refl eq_refl Hne eq_refl eq_refl eq_refl)))
             _).
    discriminate.
  - refine (proj1 (proj2 (proj2 (proj2 (C2_upstream_error_mapping
             Sample.env
             (Sample.answering (Sample.error_reply 418 "I am a teapot"))
             Sample.request world0 Sample.props Sample.messages Sample.key
             120%N (Sample.error_reply 418 "I am a teapot")
             eq_refl eq_refl eq_refl eq_refl Hne eq_refl eq_refl eq_refl))))
             _ _ _ eq_refl); [discriminate | discriminate | reflexivity].
  - refine (proj2 (proj2 (proj2 (proj2 (C2_upstream_error_mapping
             Sample.env
             (Sample.answering (Sample.error_reply 401 "No auth"))
             Sample.request world0 Sample.props Sample.messages Sample.key
             120%N (Sample.error_reply 401 "No auth")
             eq_refl eq_refl eq_refl eq_refl Hne eq_refl eq_refl eq_refl))))
             "No auth" eq_refl eq_refl).
Defined.

(** ** Transport failures and the deadline *)

Lemma code_is_exclusive (e : JsError) (a b : string) :
  code_is e a = true -> a <> b -> code_is e b = false.
Proof.
  unfold code_is. destruct (err_code e); try discriminate.
  intros Ha Hab. apply String.eqb_eq in Ha. subst.
  now apply String.eqb_neq.
Qed.

(** Past the deadline the handler answers 408; by then the timer has fired
    and aborted the controller of the call, and the handler has waited for
    30 seconds, no longer. *)
Lemma run_POST_deadline (env : Env) (up : Upstream) (request : Request)
      (w : World) (props : list (string * value)) (msgs : list value)
      (key : string) :
  well_formed w = true ->
  request_json request = inr (Obj props) ->
  lookup "message" props = Some (Arr msgs) ->
  OPENROUTER_API_KEY env = Some key ->
  key <> "" ->
  misses_deadline 30000 (up (chat_request env (Some key) (Arr msgs))) ->
  exists w',
    run_POST env up request w =
    Some (Resolved
            (error_response "Request timed out. Please try again." 408), w')
    /\ is_aborted (length (controllers w)) w' = true
    /\ clock w' = (clock w + 30000)%N.
Proof.
  intros Hwf Hreq Hmsg Hkey Hne Hslow.
  unfold run_POST. js_unfold. rewrite Hreq. js_simpl.
  cbn [own_prop]. rewrite Hmsg. js_simpl. rewrite Hkey. cbn [env_value].
  rewrite (truthy_nonempty _ Hne). js_simpl.
  rewrite createTimeoutController_run. js_simpl.
  rewrite (fetch_deadline _ _ _ _ Hwf).
  assert (Hlate : forall lat, (30000 < lat)%N -> (30000 <=? lat)%N = true).
  { intros lat Hlat. apply N.leb_le. lia. }
  destruct (up _) as [lat r|lat e|]; cbn [misses_deadline] in Hslow;
    try rewrite (Hlate lat Hslow).
  all: eexists; split; [reflexivity|]; js_simpl; split.
  all: unfold is_aborted, advance, armed; cbn [controllers timers clock].
  all: change (timer_delay 30000) with 30000%N.
  all: try (apply run_due_fires; lia).
  all: lia.
Qed.

(** What lines 79-95 do with a rejection that carries a [code] of its own:
    before the deadline, code ECONNREFUSED or ENOTFOUND gives 503, code
    ETIMEDOUT gives 504, every other rejection that is not an abort gives
    502 with the generic network error message.  The rejections of [fetch]
    are not of this kind (see [fetch_failed]): their code is on
    [error.cause]. *)
Lemma POST_transport_failures_by_code
      (env : Env) (up : Upstream) (request : Request) (w : World)
      (props : list (string * value)) (msgs : list value) (key : string)
      (lat : N) (e : JsError) :
  well_formed w = true ->
  request_json request = inr (Obj props) ->
  lookup "message" props = Some (Arr msgs) ->
  OPENROUTER_API_KEY env = Some key ->
  key <> "" ->
  up (chat_request env (Some key) (Arr msgs)) = Rejects lat e ->
  (lat < 30000)%N ->
  err_name e <> "AbortError" ->
  (code_is e "ECONNREFUSED" = true \/ code_is e "ENOTFOUND" = true ->
   exists w',
     run_POST env up request w =
     Some (Resolved
             (error_response
                "Unable to connect to AI service. Please try again later." 503),
           w'))
  /\ (code_is e "ETIMEDOUT" = true ->
      exists w',
        run_POST env up request w =
        Some (Resolved
                (error_response "Connection timed out. Please try again." 504),
              w'))
  /\ (code_is e "ECONNREFUSED" = false ->
      code_is e "ENOTFOUND" = false ->
      code_is e "ETIMEDOUT" = false ->
      exists w',
        run_POST env up request w =
        Some (Resolved
                (error_response
                   "Network error occurred. Please check your connection and try again."
                   502),
              w')).
Proof.
  intros Hwf Hreq Hmsg Hkey Hne Hup Hlat Hname.
  destruct (run_POST_reply env up request w Hwf) as [w' Hrun].
  rewrite Hrun.
  rewrite (reply_dispatch env up request props msgs key Hreq Hmsg Hkey Hne).
  rewrite Hup. cbn [reply_to_outcome]. rewrite (in_time lat Hlat).
  unfold reply_to_failure.
  apply String.eqb_neq in Hname. rewrite Hname.
  repeat split.
  - intros [Hc|Hc]; rewrite Hc; exists w'; [reflexivity|].
    now rewrite orb_true_r.
  - intros Hc. exists w'.
    rewrite (code_is_exclusive e "ETIMEDOUT" "ECONNREFUSED" Hc)
      by discriminate.
    rewrite (code_is_exclusive e "ETIMEDOUT" "ENOTFOUND" Hc)
      by discriminate.
    now rewrite Hc.
  - intros H1 H2 H3. exists w'. now rewrite H1, H2, H3.
Qed.

(** C3, where the code departs from it.  A connection that is refused, a
    host that is not found and a connection that times out make [fetch]
    reject with the TypeError "fetch failed", whose system code
    (ECONNREFUSED, ENOTFOUND, ETIMEDOUT) is on [error.cause]; the handler
    tests [error.code], which such an error does not have.  So whatever
    the system code is, a transport failure before the deadline is
    answered with status 502 and the generic network error message: the
    503 and 504 of lines 79-95 are never given for it. *)
Theorem C3_transport_failure_is_always_502
        (env : Env) (up : Upstream) (request : Request) (w : World)
        (props : list (string * value)) (msgs : list value) (key : string)
        (lat : N) (system_code : string) :
  well_formed w = true ->
  request_json request = inr (Obj props) ->
  lookup "message" props = Some (Arr msgs) ->
  OPENROUTER_API_KEY env = Some key ->
  key <> "" ->
  up (chat_request env (Some key) (Arr msgs)) =
  Rejects lat (fetch_failed system_code) ->
  (lat < 30000)%N ->
  exists w',
    run_POST env up request w =
    Some (Resolved
            {| status := 502;
               body := Obj [("error",
                             Str "Network error occurred. Please check your connection and try again.")] |},
          w').
Proof.
  intros Hwf Hreq Hmsg Hkey Hne Hup Hlat.
  destruct (run_POST_reply env up request w Hwf) as [w' Hrun].
  exists w'. rewrite Hrun.
  rewrite (reply_dispatch env up request props msgs key Hreq Hmsg Hkey Hne).
  rewrite Hup. cbn [reply_to_outcome]. rewrite (in_time lat Hlat).
  reflexivity.
Qed.

(** A refused connection, a host that is not found and a connection that
    times out: each is answered 502. *)
Lemma C3_transport_failure_is_always_502_witness :
  (exists w',
      run_POST Sample.env (Sample.unreachable "ECONNREFUSED")
               Sample.request world0 =
      Some (Resolved
              (error_response
                 "Network error occurred. Please check your connection and try again."
                 502),
            w'))
  /\ (exists w',
         run_POST Sample.env (Sample.unreachable "ENOTFOUND")
                  Sample.request world0 =
         Some (Resolved
                 (error_response
                    "Network error occurred. Please check your connection and try again."
                    502),
               w'))
  /\ (exists w',
         run_POST Sample.env (Sample.unreachable "ETIMEDOUT")
                  Sample.request world0 =
         Some (Resolved
                 (error_response
                    "Network error occurred. Please check your connection and try again."
                    502),
               w')).
Proof.
  assert (Hne : Sample.key <> "") by discriminate.
  repeat apply conj.
  - exact (C3_transport_failure_is_always_502
             Sample.env (Sample.unreachable "ECONNREFUSED") Sample.request
             world0 Sample.props Sample.messages Sample.key 15%N
             "ECONNREFUSED"
             eq_refl eq_refl eq_refl eq_refl Hne eq_refl eq_refl).
  - exact (C3_transport_failure_is_always_502
             Sample.env (Sample.unreachable "ENOTFOUND") Sample.request
             world0 Sample.props Sample.messages Sample.key 15%N
             "ENOTFOUND"
             eq_refl eq_refl eq_refl eq_refl Hne eq_refl eq_refl).
  - exact (C3_transport_failure_is_always_502
             Sample.env (Sample.unreachable "ETIMEDOUT") Sample.request
             world0 Sample.props Sample.messages Sample.key 15%N
             "ETIMEDOUT"
             eq_refl eq_refl eq_refl eq_refl Hne eq_refl eq_refl).
Defined.

(** ** Validation of the request *)

(** A body that is not JSON is rejected with status 400 and the message
    "Invalid JSON in request body". *)
Lemma POST_rejects_unparsable_body (env : Env) (up : Upstream)
      (request : Request) (w : World) (e : JsError) :
  request_json request = inl e ->
  exists w',
    run_POST env up request w =
    Some (Resolved (error_response "Invalid JSON in request body" 400), w').
Proof.
  intros Hreq. unfold run_POST. js_unfold. rewrite Hreq. done_here.
Qed.

(** A parsed body other than [null] whose [message] is missing or is not an
    array is rejected with status 400 and the message "Invalid request.
    Expected {message: []} in body". *)
Lemma POST_rejects_bad_message (env : Env) (up : Upstream)
      (request : Request) (w : World) (body : value) :
  request_json request = inr body ->
  body <> Null ->
  body <> Undefined ->
  Array_isArray (own_prop body "message") = false ->
  exists w',
    run_POST env up request w =
    Some (Resolved
            (error_response
               "Invalid request. Expected {message: []} in body" 400),
          w').
Proof.
  intros Hreq Hnull Hundef Harr. unfold run_POST. js_unfold. rewrite Hreq.
  destruct body; try contradiction; js_simpl.
  all: rewrite Harr, orb_true_r; done_here.
Qed.

(** An empty array passes the validation: with a configured key, the
    request goes to the upstream, with [messages: []]. *)
Lemma POST_accepts_empty_array (env : Env) (up : Upstream)
      (request : Request) (w : World) (props : list (string * value))
      (key : string) :
  well_formed w = true ->
  request_json request = inr (Obj props) ->
  lookup "message" props = Some (Arr []) ->
  OPENROUTER_API_KEY env = Some key ->
  key <> "" ->
  exists w',
    run_POST env up request w =
    Some (Resolved
            (reply_to_outcome (up (chat_request env (Some key) (Arr [])))),
          w').
Proof.
  intros Hwf Hreq Hmsg Hkey Hne.
  destruct (run_POST_reply env up request w Hwf) as [w' Hrun].
  exists w'. rewrite Hrun.
  now rewrite (reply_dispatch env up request props [] key Hreq Hmsg Hkey Hne).
Qed.

(** C4 holds except for one request: the body [null].  It parses as JSON
    and it has no [message], so the claim asks for "Invalid request.
    Expected {message: []} in body"; the handler reads [body.message] inside
    the [try] that guards the parsing, and answers "Invalid JSON in request
    body". *)
Theorem C4_null_body_reported_as_invalid_json
        (env : Env) (up : Upstream) (w : World) :
  exists w',
    run_POST env up {| request_json := inr Null |} w =
    Some (Resolved
            {| status := 400;
               body := Obj [("error", Str "Invalid JSON in request body")] |},
          w').
Proof.
  unfold run_POST. js_unfold. js_simpl. done_here.
Qed.

(** ** The API key *)

(** C5, as the claim states it, is false: without a key the handler does
    not answer 500 whatever the body is.  The body is validated first, so a
    request whose body is not JSON gets 400 "Invalid JSON in request body"
    and the key is never looked at. *)
Lemma C5_invalid_body_wins_over_missing_key :
  ~ (forall (env : Env) (up : Upstream) (request : Request) (w : World),
        OPENROUTER_API_KEY env = None ->
        exists w',
          run_POST env up request w =
          Some (Resolved
                  {| status := 500;
                     body := Obj [("error",
                                   Str "OpenRouter API key not configured")] |},
                w')).
Proof.
  intros Hclaim.
  destruct (Hclaim Sample.env_without_key Sample.silent
                   Sample.garbled_request world0 eq_refl) as [w' Hrun].
  vm_compute in Hrun. discriminate.
Qed.

(** C5, amended.  When the request body parses and its [message] is an
    array, and [OPENROUTER_API_KEY] is not set or is the empty string, the
    handler returns status 500 with the message "OpenRouter API key not
    configured", whatever the upstream would do. *)
Theorem C5_missing_key
        (env : Env) (up : Upstream) (request : Request) (w : World)
        (props : list (string * value)) (msgs : list value) :
  request_json request = inr (Obj props) ->
  lookup "message" props = Some (Arr msgs) ->
  OPENROUTER_API_KEY env = None \/ OPENROUTER_API_KEY env = Some "" ->
  exists w',
    run_POST env up request w =
    Some (Resolved
            {| status := 500;
               body := Obj [("error",
                             Str "OpenRouter API key not configured")] |},
          w').
Proof.
  intros Hreq Hmsg Hkey. unfold run_POST. js_unfold. rewrite Hreq. js_simpl.
  cbn [own_prop]. rewrite Hmsg. js_simpl.
  destruct Hkey as [-> | ->]; done_here.
Qed.

Lemma C5_missing_key_witness :
  exists w',
    run_POST Sample.env_without_key Sample.silent Sample.request world0 =
    Some (Resolved (error_response "OpenRouter API key not configured" 500),
          w').
Proof.
  apply (C5_missing_key Sample.env_without_key Sample.silent Sample.request
                        world0 Sample.props Sample.messages).
  - reflexivity.
  - reflexivity.
  - left. reflexivity.
Defined.

(** ** The deadline timer *)

(** C6.  Every call of the timeout-aware handler settles, and when it does
    no timer that the call created is pending: the handles of the host from
    the first free one on, among them the handle of the deadline timer, are
    all cleared.  This holds on every path: the early returns, a response
    from the upstream, a failed or aborted fetch, and the exception caught
    at the top level. *)
Theorem C6_timer_cleared_on_every_path
        (env : Env) (up : Upstream) (request : Request) (w : World) :
  exists (outcome : settled) (w' : World),
    run_POST env up request w = Some (outcome, w')
    /\ forall k, is_pending (length (timers w) + k) w' = false.
Proof.
  assert (Hdone : forall slots : list (option Timer),
             cleared_from (length (timers w)) slots ->
             forall k,
               match nth (length (timers w) + k) slots None with
               | Some _ => true
               | None => false
               end = false).
  { intros slots Hc k. now rewrite (Hc k). }
  unfold run_POST, is_pending. js_unfold.
  destruct request as [[e|body]]; js_simpl.
  { eexists _, _. split; [reflexivity|]. js_simpl.
    apply Hdone, cleared_from_end. }
  destruct body; js_simpl.
  1-2: eexists _, _; (split; [reflexivity|]); js_simpl;
    apply Hdone, cleared_from_end.
  all: match goal with
       | |- context [own_prop ?b "message"] =>
           set (message := own_prop b "message")
       end.
  all: destruct (negb (truthy message) || negb (Array_isArray message));
    js_simpl;
    [eexists _, _; (split; [reflexivity|]); js_simpl;
     apply Hdone, cleared_from_end|].
  all: destruct (negb (truthy (env_value (OPENROUTER_API_KEY env))));
    js_simpl;
    [eexists _, _; (split; [reflexivity|]); js_simpl;
     apply Hdone, cleared_from_end|].
  all: rewrite createTimeoutController_run; js_simpl.
  all: match goal with
       | |- context [fetch ?u ?req (Some _) {| world := _; locals := ?v |}] =>
           destruct (fetch_armed_settles u req w 30000 v)
             as (c & w1 & Hfetch & Hlen & Hnr)
       end.
  all: rewrite Hfetch; clear Hfetch.
  all: assert (Hclear : cleared_from (length (timers w))
                          (set_nth (length (timers w)) None (timers w1)))
    by (apply cleared_from_last; exact Hlen).
  all: destruct c as [r|r|e]; [|now elim (Hnr r)|]; clear Hnr; js_simpl.
  all: repeat first
         [ solve [ eexists _, _; split; [reflexivity|]; js_simpl;
                   apply Hdone;
                   first [ exact Hclear
                         | apply cleared_from_set_nth; exact Hclear ] ]
         | match goal with
           | |- context [if ?c then _ else _] => destruct c; js_simpl
           | |- context [match resp_text ?r with _ => _ end] =>
               destruct (resp_text r); js_simpl
           | |- context [match resp_json ?r with _ => _ end] =>
               destruct (resp_json r) as [?|[]]; js_simpl
           | |- context [match own_prop ?d ?k with _ => _ end] =>
               destruct (own_prop d k); js_simpl
           | |- context [match NextResponse_json_init ?d ?st with _ => _ end] =>
               destruct (NextResponse_json_init d st); js_simpl
           end ].
Qed.

(** ** The two variants *)

(** C7, as the claim states it, is false: the base variant completes on an
    upstream 401 that arrives in 120 ms, with status 401 and the generic
    message "Failed to get response from AI service"; the timeout-aware
    variant answers the same request with the message "Invalid API key.
    Please check your configuration.". *)
Lemma C7_variants_differ_on_upstream_401 :
  ~ (forall (env : Env) (up : Upstream) (request : Request) (w : World)
            (props : list (string * value)) (msgs : list value)
            (key : string) (lat : N) (r : FetchResponse) (res : Response)
            (w1 : World),
        well_formed w = true ->
        request_json request = inr (Obj props) ->
        lookup "message" props = Some (Arr msgs) ->
        OPENROUTER_API_KEY env = Some key ->
        key <> "" ->
        up (chat_request env (Some key) (Arr msgs)) = Responds lat r ->
        (lat < 30000)%N ->
        Base.run_POST env up request w = Some (Resolved res, w1) ->
        exists w2, run_POST env up request w = Some (Resolved res, w2)).
Proof.
  intros Hclaim.
  assert (Hne : Sample.key <> "") by discriminate.
  destruct (Hclaim Sample.env
                   (Sample.answering (Sample.error_reply 401 "No auth"))
                   Sample.request world0 Sample.props Sample.messages
                   Sample.key 120%N (Sample.error_reply 401 "No auth")
                   (error_response "Failed to get response from AI service"
                                   401)
                   {| clock := 120; timers := []; controllers := [];
                      console := [("OpenRouter API error:",
                                   LogText "No auth")] |}
                   eq_refl eq_refl eq_refl eq_refl Hne eq_refl eq_refl
                   eq_refl)
    as [w2 Hrun].
  vm_compute in Hrun. discriminate.
Qed.

Lemma relay_accepted (msg : string) (st : Z) (fallback : Response) :
  accepts_status st = true -> relay msg st fallback = error_response msg st.
Proof.
  intros Hacc. unfold relay.
  now rewrite (NextResponse_json_init_fixed _ _ Hacc).
Qed.

Lemma relay_refused (msg : string) (st : Z) (fallback : Response) :
  accepts_status st = false -> relay msg st fallback = fallback.
Proof.
  unfold relay, accepts_status, NextResponse_json_init.
  destruct ((st <? 200)%Z || (599 <? st)%Z); [reflexivity|].
  destruct (null_body_status st); [reflexivity | discriminate].
Qed.

(** Two responses that differ in the status or in the body. *)
Ltac differ H :=
  exfalso;
  solve [ discriminate H
        | apply (f_equal body) in H; cbn in H; discriminate H
        | apply (f_equal status) in H; cbn in H; discriminate H ].

Lemma invalid_message (message : value) :
  negb (truthy message) || negb (Array_isArray message) =
  negb (Array_isArray message).
Proof.
  destruct message; cbn [truthy Array_isArray negb];
    rewrite ?orb_true_r, ?orb_false_r; reflexivity.
Qed.

(** The two variants build the same response from an upstream reply
    exactly when they take the same path on it. *)
Lemma responses_agree (r : FetchResponse) :
  base_reply_to_response r = reply_to_response r <-> answered_alike r.
Proof.
  unfold answered_alike. split.
  - unfold base_reply_to_response, reply_to_response.
    destruct (ok r).
    + intros H. right. split; [reflexivity|].
      destruct (resp_json r) as [e|data]; [differ H|].
      exists data.
      destruct data as [| |b|n|s|items|props]; try differ H.
      all: match type of H with
           | context [own_prop ?d "choices"] =>
               remember (own_prop d "choices") as choices eqn:Hch
           end.
      all: destruct choices as [| |b'|n'|s'|[|first rest]|ps'];
        cbn [Array_isArray length_is_zero negb] in H;
        rewrite ?orb_true_r in H; cbn [orb] in H;
        try differ H.
      all: eexists _, _; split; reflexivity.
    + intros H. left. split; [reflexivity|].
      destruct (accepts_status (resp_status r)) eqn:Hacc;
        rewrite ?(relay_accepted _ _ _ Hacc), ?(relay_refused _ _ _ Hacc) in H.
      all: destruct (resp_text r) as [e|text].
      all: destruct (Z.eqb_spec (resp_status r) 401) as [H401|H401];
        [differ H|].
      all: destruct (Z.eqb_spec (resp_status r) 429) as [H429|H429];
        [differ H|].
      all: destruct (Z.leb_spec 500 (resp_status r)) as [H500|H500];
        [differ H|].
      all: try differ H.
      repeat (split; [first [assumption | reflexivity]|]). now exists text.
  - intros [(Hok & H401 & H429 & H500 & Hacc & text & Htext)
           | (Hok & data & first & rest & Hjson & Hch)].
    + unfold base_reply_to_response, reply_to_response.
      rewrite Hok, Htext, !(relay_accepted _ _ _ Hacc).
      destruct (Z.eqb_spec (resp_status r) 401); [contradiction|].
      destruct (Z.eqb_spec (resp_status r) 429); [contradiction|].
      destruct (Z.leb_spec 500 (resp_status r)); [lia | reflexivity].
    + destruct (reply_to_completion r data first rest Hok Hjson Hch)
        as [Hpost Hbase].
      now rewrite Hpost, Hbase.
Qed.

(** The base variant answers no upstream reply with 408. *)
Lemma base_reply_to_response_not_408 (r : FetchResponse) :
  base_reply_to_response r <> reply_to_failure AbortError.
Proof.
  unfold base_reply_to_response. intros H.
  destruct (ok r).
  - destruct (resp_json r) as [e|data]; [differ H|].
    destruct data; try differ H.
    all: match type of H with
         | context [own_prop ?d "choices"] =>
             remember (own_prop d "choices") as choices eqn:Hch
         end.
    all: destruct choices; differ H.
  - destruct (resp_text r); [differ H|].
    destruct (accepts_status (resp_status r)) eqn:Hacc;
      rewrite ?(relay_accepted _ _ _ Hacc), ?(relay_refused _ _ _ Hacc) in H;
      differ H.
Qed.

(** The timeout-aware variant answers no failure of the call with 500. *)
Lemma reply_to_failure_not_500 (e : JsError) :
  error_response "Internal server error" 500 <> reply_to_failure e.
Proof.
  unfold reply_to_failure. intros H.
  destruct (err_name e =? "AbortError"); [differ H|].
  destruct (code_is e "ECONNREFUSED" || code_is e "ENOTFOUND"); [differ H|].
  destruct (code_is e "ETIMEDOUT"); differ H.
Qed.

(** The two tables list the same response exactly where the request body
    parses to a value other than [null] and the request fails the
    validation, or the key is missing, or the upstream answers in time with
    a reply on which both variants take the same path. *)
Lemma tables_agree (env : Env) (up : Upstream) (request : Request) :
  base_reply env up request = Some (reply env up request)
  <-> exists body,
        request_json request = inr body
        /\ body <> Null
        /\ body <> Undefined
        /\ (Array_isArray (own_prop body "message") = false
            \/ truthy (env_value (OPENROUTER_API_KEY env)) = false
            \/ exists lat r,
                 up (chat_request env (OPENROUTER_API_KEY env)
                                  (own_prop body "message")) = Responds lat r
                 /\ (lat < 30000)%N
                 /\ answered_alike r).
Proof.
  assert (Hgo : forall message : value,
    (if negb (truthy message) || negb (Array_isArray message)
     then Some (error_response
                  "Invalid request. Expected {message: []} in body" 400)
     else if negb (truthy (env_value (OPENROUTER_API_KEY env)))
     then Some (error_response "OpenRouter API key not configured" 500)
     else
       match up (chat_request env (OPENROUTER_API_KEY env) message) with
       | Responds _ r => Some (base_reply_to_response r)
       | Rejects _ _ => Some (error_response "Internal server error" 500)
       | Hangs => None
       end) =
    Some (if negb (truthy message) || negb (Array_isArray message)
          then error_response
                 "Invalid request. Expected {message: []} in body" 400
          else if negb (truthy (env_value (OPENROUTER_API_KEY env)))
          then error_response "OpenRouter API key not configured" 500
          else reply_to_outcome
                 (up (chat_request env (OPENROUTER_API_KEY env) message)))
    <-> (Array_isArray message = false
         \/ truthy (env_value (OPENROUTER_API_KEY env)) = false
         \/ exists lat r,
              up (chat_request env (OPENROUTER_API_KEY env) message)
              = Responds lat r
              /\ (lat < 30000)%N
              /\ answered_alike r)).
  { intros message. rewrite invalid_message.
    destruct (Array_isArray message); cbn [negb].
    2:{ split; [now left | reflexivity]. }
    destruct (truthy (env_value (OPENROUTER_API_KEY env))); cbn [negb].
    2:{ split; [now right; left | reflexivity]. }
    destruct (up _) as [lat r|lat e|]; cbn [reply_to_outcome].
    - destruct (N.leb_spec 30000 lat) as [Hlate|Hlat].
      + split.
        * intros [= H]. now elim (base_reply_to_response_not_408 r).
        * intros [H|[H|(lat' & r' & [= -> ->] & Hlat & _)]];
            try discriminate H. lia.
      + split.
        * intros [= H]. right. right. exists lat, r.
          split; [reflexivity|]. split; [exact Hlat|].
          now apply responses_agree.
        * intros [H|[H|(lat' & r' & [= -> ->] & _ & Hr)]];
            try discriminate H.
          f_equal. now apply responses_agree.
    - split.
      + intros [= H]. exfalso.
        destruct (30000 <=? lat)%N;
          exact (reply_to_failure_not_500 _ H).
      + intros [H|[H|(lat' & r' & H & _)]]; discriminate H.
    - split.
      + discriminate.
      + intros [H|[H|(lat' & r' & H & _)]]; discriminate H. }
  unfold base_reply, reply.
  destruct (request_json request) as [e|body].
  { split; [intros [= H]; differ H | intros (body & H & _); discriminate H]. }
  destruct body.
  1-2: split; [ intros [= H]; differ H
              | intros (body & [= <-] & Hnull & Hundef & _); contradiction ].
  all: split;
    [ intros H; eexists; split; [reflexivity|];
      split; [discriminate|]; split; [discriminate|];
      apply Hgo; exact H
    | intros (body & [= <-] & _ & _ & Hcases); apply Hgo; exact Hcases ].
Qed.

(** C7, amended.  The two variants return the same status and body exactly
    in these cases: the request body parses to a value other than [null],
    and the request fails the validation of [message], or the key is not
    configured, or the upstream answers before the deadline with a reply on
    which both take the same path ([answered_alike]): a success status with
    a JSON body that has a non-empty [choices] array, or a non-success
    status other than 401 and 429, below 500, that [NextResponse.json]
    accepts, with a readable error body.  In every other case they do not
    both answer with one response: on a body that does not parse or is
    [null], on upstream statuses 401, 429, 304 and those from 500 on, on an
    unreadable error body, on a success body that is not JSON or has no
    non-empty [choices] array, on transport failures and on an upstream
    that answers late or never. *)
Theorem C7_variants_agree
        (env : Env) (up : Upstream) (request : Request) (w : World) :
  well_formed w = true ->
  (exists res w1 w2,
      Base.run_POST env up request w = Some (Resolved res, w1)
      /\ run_POST env up request w = Some (Resolved res, w2))
  <-> exists body,
        request_json request = inr body
        /\ body <> Null
        /\ body <> Undefined
        /\ (Array_isArray (own_prop body "message") = false
            \/ truthy (env_value (OPENROUTER_API_KEY env)) = false
            \/ exists lat r,
                 up (chat_request env (OPENROUTER_API_KEY env)
                                  (own_prop body "message")) = Responds lat r
                 /\ (lat < 30000)%N
                 /\ answered_alike r).
Proof.
  intros Hwf.
  destruct (run_POST_reply env up request w Hwf) as [w2 Hpost].
  pose proof (run_base_reply env up request w) as Hbase.
  rewrite <- tables_agree. split.
  - intros (res & w1 & w2' & Hb & Hp).
    rewrite Hp in Hpost. injection Hpost as -> _.
    rewrite Hb in Hbase. cbn [option_map fst] in Hbase.
    destruct (base_reply env up request) as [res|]; [|discriminate Hbase].
    cbn [option_map] in Hbase. now injection Hbase as ->.
  - intros Htable. rewrite Htable in Hbase. cbn [option_map] in Hbase.
    apply option_map_fst_some in Hbase as [w1 Hbase].
    exists (reply env up request), w1, w2. split; assumption.
Qed.

(** Both variants pass an upstream 418 on with the generic message. *)
Lemma C7_variants_agree_witness :
  exists res w1 w2,
    Base.run_POST Sample.env
                  (Sample.answering (Sample.error_reply 418 "I am a teapot"))
                  Sample.request world0 = Some (Resolved res, w1)
    /\ run_POST Sample.env
                (Sample.answering (Sample.error_reply 418 "I am a teapot"))
                Sample.request world0 = Some (Resolved res, w2).
Proof.
  apply (C7_variants_agree
           Sample.env
           (Sample.answering (Sample.error_reply 418 "I am a teapot"))
           Sample.request world0 eq_refl).
  exists (Obj Sample.props).
  split; [reflexivity|]. split; [discriminate|]. split; [discriminate|].
  right. right. exists 120%N, (Sample.error_reply 418 "I am a teapot").
  split; [reflexivity|]. split; [reflexivity|].
  left. split; [reflexivity|]. split; [discriminate|].
  split; [discriminate|]. split; [reflexivity|]. split; [reflexivity|].
  exists "I am a teapot". reflexivity.
Defined.

(** ** Determinism *)

(** C8.  The response is a function of the request, the configuration and
    the upstream's behaviour alone: two calls with the same three, in any
    two states of the host (other clock, other pending timers and
    controllers, other console), resolve with the same response. *)
Theorem C8_same_input_same_response
        (env : Env) (up : Upstream) (request : Request) (w1 w2 : World) :
  well_formed w1 = true ->
  well_formed w2 = true ->
  exists res w1' w2',
    run_POST env up request w1 = Some (Resolved res, w1')
    /\ run_POST env up request w2 = Some (Resolved res, w2').
Proof.
  intros Hwf1 Hwf2.
  destruct (run_POST_reply env up request w1 Hwf1) as [w1' H1].
  destruct (run_POST_reply env up request w2 Hwf2) as [w2' H2].
  exists (reply env up request), w1', w2'. split; assumption.
Qed.

(** The same request in the empty host and in a host where another request
    is in flight. *)
Lemma C8_same_input_same_response_witness :
  exists res w1' w2',
    run_POST Sample.env
             (Sample.answering
                (Sample.json_reply (Sample.completion_of (Str "Hi there"))))
             Sample.request world0 = Some (Resolved res, w1')
    /\ run_POST Sample.env
                (Sample.answering
                   (Sample.json_reply (Sample.completion_of (Str "Hi there"))))
                Sample.request Sample.busy_world = Some (Resolved res, w2').
Proof.
  apply (C8_same_input_same_response
           Sample.env
           (Sample.answering
              (Sample.json_reply (Sample.completion_of (Str "Hi there"))))
           Sample.request world0 Sample.busy_world).
  - reflexivity.
  - reflexivity.
Defined.

(** ** The shape of the responses *)

Lemma shape_error (msg : string) (st : Z) :
  (st < 200)%Z \/ (299 < st)%Z -> response_shape (error_response msg st).
Proof.
  intros Hst. right. split; [exact Hst|]. now exists msg.
Qed.

Lemma shape_success (data : value) : response_shape (success_response data).
Proof.
  left. split; [reflexivity|]. unfold success_response.
  eexists _, _. split; [reflexivity|].
  unfold or_else. destruct (truthy (opt_prop _ _)) eqn:Ht; [exact Ht|].
  reflexivity.
Qed.

Lemma not_ok_status (r : FetchResponse) :
  ok r = false -> (resp_status r < 200)%Z \/ (299 < resp_status r)%Z.
Proof.
  unfold ok. intros Hok. apply andb_false_iff in Hok as [H|H].
  - left. apply Z.leb_gt. exact H.
  - right. apply Z.leb_gt. exact H.
Qed.

Lemma relay_shape (msg : string) (st : Z) (fallback : Response) :
  (st < 200)%Z \/ (299 < st)%Z ->
  response_shape fallback ->
  response_shape (relay msg st fallback).
Proof.
  intros Hst Hfb. destruct (accepts_status st) eqn:Hacc.
  - rewrite (relay_accepted _ _ _ Hacc). now apply shape_error.
  - now rewrite (relay_refused _ _ _ Hacc).
Qed.

Lemma reply_to_failure_shape (e : JsError) :
  response_shape (reply_to_failure e).
Proof.
  unfold reply_to_failure.
  destruct (err_name e =? "AbortError"); [apply shape_error; lia|].
  destruct (code_is e "ECONNREFUSED" || code_is e "ENOTFOUND");
    [apply shape_error; lia|].
  destruct (code_is e "ETIMEDOUT"); apply shape_error; lia.
Qed.

Lemma reply_to_response_shape (r : FetchResponse) :
  response_shape (reply_to_response r).
Proof.
  unfold reply_to_response. destruct (ok r) eqn:Hok.
  - destruct (resp_json r) as [e|data]; [apply shape_error; lia|].
    destruct data; try (apply shape_error; lia).
    all: match goal with
         | |- context [if ?c then _ else _] => destruct c
         end; [apply shape_error; lia | apply shape_success].
  - destruct (resp_status r =? 401)%Z; [apply shape_error; lia|].
    destruct (resp_status r =? 429)%Z; [apply shape_error; lia|].
    destruct (500 <=? resp_status r)%Z; [apply shape_error; lia|].
    apply relay_shape; [apply not_ok_status, Hok | apply shape_error; lia].
Qed.

Lemma reply_shape (env : Env) (up : Upstream) (request : Request) :
  response_shape (reply env up request).
Proof.
  unfold reply.
  destruct (request_json request) as [e|body]; [apply shape_error; lia|].
  destruct body; try (apply shape_error; lia).
  all: match goal with
       | |- context [if ?c then _ else _] => destruct c
       end; [apply shape_error; lia|].
  all: match goal with
       | |- context [if ?c then _ else _] => destruct c
       end; [apply shape_error; lia|].
  all: unfold reply_to_outcome.
  all: destruct (up _) as [lat r|lat e|];
    try destruct (30000 <=? lat)%N;
    auto using reply_to_failure_shape, reply_to_response_shape.
Qed.

Lemma base_reply_to_response_shape (r : FetchResponse) :
  response_shape (base_reply_to_response r).
Proof.
  unfold base_reply_to_response. destruct (ok r) eqn:Hok.
  - destruct (resp_json r) as [e|data]; [apply shape_error; lia|].
    destruct data; try (apply shape_error; lia).
    all: match goal with
         | |- context [match ?c with _ => _ end] => destruct c
         end; first [apply shape_error; lia | apply shape_success].
  - destruct (resp_text r); [apply shape_error; lia|].
    apply relay_shape; [apply not_ok_status, Hok | apply shape_error; lia].
Qed.

Lemma base_reply_shape (env : Env) (up : Upstream) (request : Request)
      (res : Response) :
  base_reply env up request = Some res -> response_shape res.
Proof.
  unfold base_reply.
  destruct (request_json request) as [e|body].
  { intros [= <-]. apply shape_error. lia. }
  destruct body; try (intros [= <-]; apply shape_error; lia).
  all: match goal with
       | |- context [if ?c then _ else _] => destruct c
       end; [intros [= <-]; apply shape_error; lia|].
  all: match goal with
       | |- context [if ?c then _ else _] => destruct c
       end; [intros [= <-]; apply shape_error; lia|].
  all: destruct (up _) as [lat r|lat e|]; intros [= <-].
  all: first [apply base_reply_to_response_shape | apply shape_error; lia].
Qed.

(** C9, as the claim states it, is false: the [response] field of a 200
    response is not always a string.  The handler returns whatever truthy
    value the upstream put in [choices[0].message.content]; for the reply
    [{"choices":[{"message":{"content":true}}],...}] the body is
    [{ success: true, response: true, usage }]. *)
Lemma C9_response_field_need_not_be_a_string :
  ~ (forall (env : Env) (up : Upstream) (request : Request) (w : World)
            (res : Response) (w' : World),
        well_formed w = true ->
        run_POST env up request w = Some (Resolved res, w') ->
        (status res = 200%Z
         /\ own_prop (body res) "success" = Bool true
         /\ exists s, own_prop (body res) "response" = Str s)
        \/ (((status res < 200)%Z \/ (299 < status res)%Z)
            /\ exists msg, body res = Obj [("error", Str msg)])).
Proof.
  intros Hclaim.
  destruct (Hclaim Sample.env
                   (Sample.answering
                      (Sample.json_reply (Sample.completion_of (Bool true))))
                   Sample.request world0
                   {| status := 200;
                      body := Obj [("success", Bool true);
                                   ("response", Bool true);
                                   ("usage", Sample.usage)] |}
                   {| clock := 120; timers := [None]; controllers := [false];
                      console := [] |}
                   eq_refl eq_refl)
    as [(_ & _ & s & Hs) | ([Hst|Hst] & _)].
  - discriminate Hs.
  - discriminate Hst.
  - discriminate Hst.
Qed.

(** C9, amended.  Every response of the two variants has one of two
    shapes: status 200 with the body [{ success: true, response, usage }],
    where [response] is a truthy value (the upstream's content as it is, a
    string or not, or the literal "No response generated"), or a status
    outside 200-299 with a body that is exactly [{ error: <string> }].  So
    an [error] body never comes with a 2xx status and [success: true] never
    with a status other than 200.  In a well-formed host the timeout-aware
    variant always resolves, with such a response; the base variant, when
    it settles, resolves with such a response. *)
Theorem C9_response_shapes
        (env : Env) (up : Upstream) (request : Request) (w : World) :
  well_formed w = true ->
  (exists res w',
      run_POST env up request w = Some (Resolved res, w')
      /\ response_shape res)
  /\ match Base.run_POST env up request w with
     | Some (Resolved res, _) => response_shape res
     | Some (Rejected _, _) => False
     | None => True
     end.
Proof.
  intros Hwf. split.
  - destruct (run_POST_reply env up request w Hwf) as [w' Hrun].
    exists (reply env up request), w'. split; [exact Hrun|].
    apply reply_shape.
  - pose proof (run_base_reply env up request w) as Hbase.
    destruct (Base.run_POST env up request w) as [[[res|e] w']|];
      cbn [option_map fst] in Hbase.
    + destruct (base_reply env up request) as [res'|] eqn:Hreply;
        [|discriminate].
      injection Hbase as ->. now apply (base_reply_shape env up request).
    + destruct (base_reply env up request); discriminate.
    + exact I.
Qed.

Lemma C9_response_shapes_witness :
  (exists res w',
      run_POST Sample.env
               (Sample.answering
                  (Sample.json_reply (Sample.completion_of (Bool true))))
               Sample.request Sample.busy_world = Some (Resolved res, w')
      /\ response_shape res)
  /\ response_shape
       {| status := 200;
          body := Obj [("success", Bool true);
                       ("response", Bool true);
                       ("usage", Sample.usage)] |}.
Proof.
  exact (C9_response_shapes
           Sample.env
           (Sample.answering
              (Sample.json_reply (Sample.completion_of (Bool true))))
           Sample.request Sample.busy_world eq_refl).
Defined.

(** ** The API key and the response *)

(** The key reaches the wire in the [Authorization] header and nowhere
    else: the requests sent under two keys differ in that header only. *)
Lemma key_only_in_authorization_header (env : Env) (k1 k2 : string)
      (message : value) :
  let q1 := chat_request (with_key env k1) (Some k1) message in
  let q2 := chat_request (with_key env k2) (Some k2) message in
  url q1 = url q2
  /\ method q1 = method q2
  /\ payload q1 = payload q2
  /\ tl (headers q1) = tl (headers q2)
  /\ hd ("", Undefined) (headers q1) = ("Authorization", Str ("Bearer " ++ k1)).
Proof. repeat split. Qed.

Lemma mentions_lookup (k name : string) (props : list (string * value))
      (x : value) :
  lookup name props = Some x ->
  mentions k x = true ->
  mentions k (Obj props) = true.
Proof.
  intros Hl Hx. cbn [mentions].
  induction props as [|[name' y] rest IH]; simpl in *; [discriminate|].
  destruct (name' =? name).
  - injection Hl as ->. now rewrite Hx, orb_true_r.
  - rewrite (IH Hl). apply orb_true_r.
Qed.

Lemma mentions_own_prop (k name : string) (v : value) :
  mentions k (own_prop v name) = true -> mentions k v = true.
Proof.
  destruct v; cbn [own_prop mentions]; try discriminate.
  destruct (lookup name props) as [x|] eqn:Hl; [|discriminate].
  apply (mentions_lookup k name props x Hl).
Qed.

Lemma mentions_opt_prop (k name : string) (v : value) :
  mentions k (opt_prop v name) = true -> mentions k v = true.
Proof.
  destruct v; cbn [opt_prop]; try discriminate;
    apply (mentions_own_prop k name).
Qed.

Lemma mentions_nth (k : string) (items : list value) (i : nat) :
  mentions k (nth i items Undefined) = true ->
  mentions k (Arr items) = true.
Proof.
  cbn [mentions]. revert i.
  induction items as [|x rest IH]; intros [|i]; simpl; try discriminate.
  - intros ->. reflexivity.
  - intros Hi. rewrite (IH i Hi). apply orb_true_r.
Qed.

Lemma literal_mentioned (k lit : string) :
  In lit handler_literals ->
  includes lit k = true ->
  existsb (fun l => includes l k) handler_literals = true.
Proof.
  intros Hin Hk. apply existsb_exists. now exists lit.
Qed.

Ltac in_literals :=
  unfold handler_literals;
  repeat first [left; reflexivity | right].

(** An error body mentions only what its two literals mention. *)
Lemma error_body_mentions (k msg : string) (st : Z) :
  In msg handler_literals ->
  mentions k (body (error_response msg st)) = true ->
  existsb (fun l => includes l k) handler_literals = true.
Proof.
  intros Hin. cbn [error_response NextResponse_json_init body error_body
                   mentions existsb].
  rewrite orb_false_r. intros Hm. apply orb_true_iff in Hm as [Hm|Hm].
  - apply (literal_mentioned k "error"); [in_literals | exact Hm].
  - apply (literal_mentioned k msg); assumption.
Qed.

(** The success body mentions what its literals mention and what the
    upstream's reply mentions. *)
Lemma success_body_mentions (k : string) (data : value)
      (items : list value) :
  own_prop data "choices" = Arr items ->
  mentions k (body (success_response data)) = true ->
  existsb (fun l => includes l k) handler_literals = true
  \/ mentions k data = true.
Proof.
  intros Hch. unfold success_response. rewrite Hch.
  cbn [NextResponse_json body mentions existsb own_index].
  rewrite !orb_false_r.
  destruct (includes "success" k) eqn:Hsuccess.
  { intros _. left.
    apply (literal_mentioned k "success"); [in_literals | exact Hsuccess]. }
  destruct (includes "response" k) eqn:Hresponse.
  { intros _. left.
    apply (literal_mentioned k "response"); [in_literals | exact Hresponse]. }
  destruct (includes "usage" k) eqn:Husage.
  { intros _. left.
    apply (literal_mentioned k "usage"); [in_literals | exact Husage]. }
  cbn [orb]. intros Hm. apply orb_true_iff in Hm as [Hm|Hm].
  - unfold or_else in Hm. destruct (truthy _).
    + right. apply mentions_opt_prop, mentions_opt_prop in Hm.
      apply mentions_nth in Hm. rewrite <- Hch in Hm.
      now apply mentions_own_prop in Hm.
    + left. apply (literal_mentioned k "No response generated");
        [in_literals | exact Hm].
  - right. now apply mentions_own_prop in Hm.
Qed.

Ltac error_case :=
  let Hm := fresh "Hm" in
  intros Hm; left; refine (error_body_mentions _ _ _ _ Hm); in_literals.

Lemma reply_to_failure_mentions (k : string) (e : JsError) :
  mentions k (body (reply_to_failure e)) = true ->
  existsb (fun l => includes l k) handler_literals = true.
Proof.
  unfold reply_to_failure.
  assert (Hleft : forall P : Prop,
             (P -> existsb (fun l => includes l k) handler_literals = true
                   \/ False) ->
             P -> existsb (fun l => includes l k) handler_literals = true).
  { intros P HP p. destruct (HP p) as [H|[]]. exact H. }
  apply Hleft.
  destruct (err_name e =? "AbortError"); [error_case|].
  destruct (code_is e "ECONNREFUSED" || code_is e "ENOTFOUND");
    [error_case|].
  destruct (code_is e "ETIMEDOUT"); error_case.
Qed.

Lemma accepted_choices (v : value) :
  negb (truthy v) || negb (Array_isArray v) || length_is_zero v = false ->
  exists items, v = Arr items.
Proof.
  destruct v; cbn [truthy Array_isArray length_is_zero negb orb];
    rewrite ?orb_true_r; try discriminate.
  intros _. now exists items.
Qed.

Lemma relay_mentions (k msg : string) (st : Z) (fallback : Response) :
  In msg handler_literals ->
  (mentions k (body fallback) = true ->
   existsb (fun l => includes l k) handler_literals = true) ->
  mentions k (body (relay msg st fallback)) = true ->
  existsb (fun l => includes l k) handler_literals = true.
Proof.
  intros Hin Hfb. destruct (accepts_status st) eqn:Hacc.
  - rewrite (relay_accepted _ _ _ Hacc). now apply error_body_mentions.
  - now rewrite (relay_refused _ _ _ Hacc).
Qed.

Lemma reply_to_response_mentions (k : string) (r : FetchResponse) :
  mentions k (body (reply_to_response r)) = true ->
  existsb (fun l => includes l k) handler_literals = true
  \/ (ok r = true
      /\ exists data, resp_json r = inr data /\ mentions k data = true).
Proof.
  unfold reply_to_response. destruct (ok r).
  - destruct (resp_json r) as [e|data]; [error_case|].
    destruct data; try error_case.
    destruct (negb (truthy (own_prop (Obj props) "choices"))
              || negb (Array_isArray (own_prop (Obj props) "choices"))
              || length_is_zero (own_prop (Obj props) "choices")) eqn:Hv;
      [error_case|].
    destruct (accepted_choices _ Hv) as [items Hch].
    intros Hm.
    destruct (success_body_mentions k (Obj props) items Hch Hm) as [H|H].
    + now left.
    + right. split; [reflexivity|]. now exists (Obj props).
  - destruct (resp_status r =? 401)%Z; [error_case|].
    destruct (resp_status r =? 429)%Z; [error_case|].
    destruct (500 <=? resp_status r)%Z; [error_case|].
    intros Hm. left. refine (relay_mentions _ _ _ _ _ _ Hm); [in_literals|].
    apply error_body_mentions. in_literals.
Qed.

(** What a response body mentions comes from the handler's literals or
    from the JSON the upstream replied with, in time and with a success
    status, to the request made for this call. *)
Lemma reply_mentions (env : Env) (up : Upstream) (request : Request)
      (k : string) :
  mentions k (body (reply env up request)) = true ->
  existsb (fun l => includes l k) handler_literals = true
  \/ exists body lat r data,
       request_json request = inr body
       /\ up (chat_request env (OPENROUTER_API_KEY env)
                           (own_prop body "message")) = Responds lat r
       /\ (lat < 30000)%N
       /\ ok r = true
       /\ resp_json r = inr data
       /\ mentions k data = true.
Proof.
  unfold reply.
  destruct (request_json request) as [e|body]; [error_case|].
  destruct body; try error_case.
  all: match goal with
       | |- context [if ?c then _ else _] => destruct c
       end; [error_case|].
  all: match goal with
       | |- context [if ?c then _ else _] => destruct c
       end; [error_case|].
  all: unfold reply_to_outcome.
  all: destruct (up _) as [lat r|lat e|] eqn:Hup;
    try destruct (N.leb_spec 30000 lat) as [Hlate|Hlat].
  all: try (intros Hm; left; now apply (reply_to_failure_mentions k _ Hm)).
  all: intros Hm;
    destruct (reply_to_response_mentions k r Hm)
      as [H|(Hok & data & Hj & Hd)];
    [now left|].
  all: right; eexists _, lat, r, data; split; [reflexivity|];
    split; [exact Hup|]; repeat (split; [assumption|]); assumption.
Qed.

Lemma reply_key_independent (env : Env) (up : Upstream) (request : Request)
      (k1 k2 : string) :
  k1 <> "" ->
  k2 <> "" ->
  (forall message,
      up (chat_request (with_key env k1) (Some k1) message)
      = up (chat_request (with_key env k2) (Some k2) message)) ->
  reply (with_key env k1) up request = reply (with_key env k2) up request.
Proof.
  intros H1 H2 Hup. unfold reply.
  cbn [with_key OPENROUTER_API_KEY env_value].
  rewrite (truthy_nonempty k1 H1), (truthy_nonempty k2 H2). cbn [negb].
  destruct (request_json request) as [e|body]; [reflexivity|].
  destruct body; try reflexivity.
  all: now rewrite Hup.
Qed.

(** C10, as the claim states it, is false in its last part: a response body
    can contain the key.  The handler relays [choices[0].message.content]
    and [usage] as the upstream sent them, and the upstream has the key:
    every request carries it.  Here the upstream answers every request
    alike, with the key as content, and the caller reads the key in the
    [response] field. *)
Lemma C10_upstream_can_return_the_key :
  ~ (forall (env : Env) (up : Upstream) (request : Request) (w : World)
            (key : string) (res : Response) (w' : World),
        well_formed w = true ->
        OPENROUTER_API_KEY env = Some key ->
        key <> "" ->
        (forall q q', up q = up q') ->
        run_POST env up request w = Some (Resolved res, w') ->
        mentions key (body res) = false).
Proof.
  intros Hclaim.
  assert (Hne : Sample.key <> "") by discriminate.
  assert (Hconst : forall q q', Sample.leaking q = Sample.leaking q')
    by reflexivity.
  pose proof (Hclaim Sample.env Sample.leaking Sample.request world0
                     Sample.key
                     {| status := 200;
                        body := Obj [("success", Bool true);
                                     ("response", Str Sample.key);
                                     ("usage", Sample.usage)] |}
                     {| clock := 120; timers := [None];
                        controllers := [false]; console := [] |}
                     eq_refl eq_refl Hne Hconst eq_refl) as Hno.
  vm_compute in Hno. discriminate.
Qed.

(** The host's check lets the requests made under a key through when the
    [Authorization] header it gives is one the host sends, and the other
    headers are. *)
Lemma sendable_with_key (env : Env) (k1 k2 : string) (message1 message2 : value) :
  header_value_ok ("Bearer " ++ k1) = true ->
  header_value_ok ("Bearer " ++ k2) = true ->
  sendable (chat_request (with_key env k1) (Some k1) message1)
  = sendable (chat_request (with_key env k2) (Some k2) message2).
Proof.
  intros H1 H2. unfold sendable, chat_request.
  cbn [headers forallb snd template with_key APP_URL APP_NAME].
  now rewrite H1, H2.
Qed.

Lemma client_responds (service : Upstream) (q : WireRequest) (lat : N)
      (r : FetchResponse) :
  client service q = Responds lat r -> service q = Responds lat r.
Proof.
  unfold client. destruct (sendable q); [trivial | discriminate].
Qed.

(** A key that makes an [Authorization] header the host does not send (a
    key with a line break inside it, say) never reaches the service: the
    call fails at once and the handler answers 502, whatever the service
    would have answered. *)
Lemma POST_key_refused_by_fetch
      (env : Env) (service : Upstream) (request : Request) (w : World)
      (props : list (string * value)) (msgs : list value) (key : string) :
  well_formed w = true ->
  request_json request = inr (Obj props) ->
  lookup "message" props = Some (Arr msgs) ->
  OPENROUTER_API_KEY env = Some key ->
  key <> "" ->
  header_value_ok ("Bearer " ++ key) = false ->
  exists w',
    run_POST env (client service) request w =
    Some (Resolved
            (error_response
               "Network error occurred. Please check your connection and try again."
               502),
          w').
Proof.
  intros Hwf Hreq Hmsg Hkey Hne Hbad.
  destruct (run_POST_reply env (client service) request w Hwf) as [w' Hrun].
  exists w'. rewrite Hrun.
  rewrite (reply_dispatch env (client service) request props msgs key
             Hreq Hmsg Hkey Hne).
  unfold client, sendable, chat_request.
  cbn [headers forallb snd template]. now rewrite Hbad.
Qed.

(** C10, amended.  For any two non-empty values of [OPENROUTER_API_KEY]
    that the host sends in a header (no line break or other control
    character inside them) and a service that answers alike under both, the
    handler returns the same status and body; and the body contains the key
    only where one of the handler's fixed literals contains it, or the JSON
    does that the service replied with, in time and with a success status,
    to the request made for this call.  The handler itself puts the key in
    the [Authorization] header of the outbound request
    ([key_only_in_authorization_header]) and nowhere else. *)
Theorem C10_key_does_not_flow
        (env : Env) (service : Upstream) (request : Request) (w : World)
        (k1 k2 : string) :
  well_formed w = true ->
  k1 <> "" ->
  k2 <> "" ->
  header_value_ok ("Bearer " ++ k1) = true ->
  header_value_ok ("Bearer " ++ k2) = true ->
  (forall message,
      service (chat_request (with_key env k1) (Some k1) message)
      = service (chat_request (with_key env k2) (Some k2) message)) ->
  exists res w1 w2,
    run_POST (with_key env k1) (client service) request w
    = Some (Resolved res, w1)
    /\ run_POST (with_key env k2) (client service) request w
       = Some (Resolved res, w2)
    /\ (mentions k1 (body res) = true ->
        existsb (fun l => includes l k1) handler_literals = true
        \/ exists body lat r data,
             request_json request = inr body
             /\ service (chat_request (with_key env k1) (Some k1)
                                      (own_prop body "message"))
                = Responds lat r
             /\ (lat < 30000)%N
             /\ ok r = true
             /\ resp_json r = inr data
             /\ mentions k1 data = true).
Proof.
  intros Hwf H1 H2 Hok1 Hok2 Hservice.
  assert (Hup : forall message,
             client service (chat_request (with_key env k1) (Some k1) message)
             = client service
                 (chat_request (with_key env k2) (Some k2) message)).
  { intros message. unfold client.
    rewrite (sendable_with_key env k1 k2 message message Hok1 Hok2).
    now rewrite Hservice. }
  destruct (run_POST_reply (with_key env k1) (client service) request w Hwf)
    as [w1 Hr1].
  destruct (run_POST_reply (with_key env k2) (client service) request w Hwf)
    as [w2 Hr2].
  rewrite <- (reply_key_independent env (client service) request k1 k2
                H1 H2 Hup) in Hr2.
  exists (reply (with_key env k1) (client service) request), w1, w2.
  split; [exact Hr1|]. split; [exact Hr2|].
  intros Hm.
  destruct (reply_mentions (with_key env k1) (client service) request k1 Hm)
    as [Hlit|(body & lat & r & data & Hreq & Hcall & Hrest)];
    [now left|].
  right. exists body, lat, r, data. split; [exact Hreq|].
  split; [|exact Hrest].
  exact (client_responds service _ lat r Hcall).
Qed.

(** Two keys, a service that does not look at the key: one response. *)
Lemma C10_key_does_not_flow_witness :
  exists res w1 w2,
    run_POST (with_key Sample.env "sk-or-v1-1111")
             (client
                (Sample.answering
                   (Sample.json_reply
                      (Sample.completion_of (Str "Hi there")))))
             Sample.request world0 = Some (Resolved res, w1)
    /\ run_POST (with_key Sample.env "sk-or-v1-2222")
                (client
                   (Sample.answering
                      (Sample.json_reply
                         (Sample.completion_of (Str "Hi there")))))
                Sample.request world0 = Some (Resolved res, w2)
    /\ (mentions "sk-or-v1-1111" (body res) = true ->
        existsb (fun l => includes l "sk-or-v1-1111") handler_literals = true
        \/ exists body lat r data,
             request_json Sample.request = inr body
             /\ Sample.answering
                  (Sample.json_reply (Sample.completion_of (Str "Hi there")))
                  (chat_request (with_key Sample.env "sk-or-v1-1111")
                                (Some "sk-or-v1-1111")
                                (own_prop body "message"))
                = Responds lat r
             /\ (lat < 30000)%N
             /\ ok r = true
             /\ resp_json r = inr data
             /\ mentions "sk-or-v1-1111" data = true).
Proof.
  apply (C10_key_does_not_flow
           Sample.env
           (Sample.answering
              (Sample.json_reply (Sample.completion_of (Str "Hi there"))))
           Sample.request world0 "sk-or-v1-1111" "sk-or-v1-2222").
  - reflexivity.
  - discriminate.
  - discriminate.
  - reflexivity.
  - reflexivity.
  - reflexivity.
Defined.

(** * Further properties of the two route files *)

(** ** [createTimeoutController] and [clearTimeout] *)

Lemma nth_set_nth_other {A : Type} (i j : nat) (x d : A) (l : list A) :
  i <> j -> nth j (set_nth i x l) d = nth j l d.
Proof.
  revert i j; induction l as [|y l IH]; intros [|i] [|j] Hij; simpl;
    try contradiction; auto.
Qed.

Lemma set_nth_last {A : Type} (x y : A) (l : list A) :
  set_nth (length l) x (l ++ [y]) = l ++ [x].
Proof.
  induction l as [|z l IH]; simpl; [reflexivity | now rewrite IH].
Qed.


(** A controller keeps its flag while time passes when no timer that
    aborts it comes due. *)
Lemma run_due_untouched (t : N) (slots : list (option Timer))
      (cs : list bool) (c : nat) :
  forallb (fun slot =>
             match slot with
             | Some tm => negb (Nat.eqb (aborts tm) c) || negb (due tm <=? t)%N
             | None => true
             end) slots = true ->
  nth c (run_due t slots cs) false = nth c cs false.
Proof.
  revert cs; induction slots as [|[tm|] rest IH]; intros cs Hok; simpl in *.
  - reflexivity.
  - apply andb_true_iff in Hok as [Htm Hrest]. rewrite (IH _ Hrest).
    destruct (due tm <=? t)%N; [|reflexivity].
    rewrite orb_false_r in Htm. apply negb_true_iff, Nat.eqb_neq in Htm.
    now apply nth_set_nth_other.
  - now apply IH.
Qed.

(** In a well-formed host no timer aborts the controller that is created
    next. *)
Lemma stale_timers_miss (t : N) (w : World) :
  well_formed w = true ->
  forallb (fun slot =>
             match slot with
             | Some tm =>
                 negb (Nat.eqb (aborts tm) (length (controllers w)))
                 || negb (due tm <=? t)%N
             | None => true
             end) (timers w) = true.
Proof.
  unfold well_formed. intros Hwf.
  rewrite forallb_forall in *. intros [tm|] Hin; [|reflexivity].
  specialize (Hwf _ Hin). cbn in Hwf. apply Nat.ltb_lt in Hwf.
  apply orb_true_iff. left. apply negb_true_iff, Nat.eqb_neq. lia.
Qed.

(** [createTimeoutController(ms)] returns a controller that is not aborted
    and the handle of a pending timer, leaves the local variables alone, and
    from then on the controller is aborted exactly when the clock has
    reached the time of the call plus the delay the host gives the timer:
    [ms] when it is between 1 and 2147483647, and 1 ms otherwise
    ([timer_delay]). *)
Theorem createTimeoutController_aborts_at_deadline
        {L : Type} (ms : N) (fr : Frame L) :
  well_formed (world fr) = true ->
  exists c h fr',
    createTimeoutController ms fr = Some (Normal (c, h), fr')
    /\ locals fr' = locals fr
    /\ is_pending h (world fr') = true
    /\ is_aborted c (world fr') = false
    /\ forall t,
        is_aborted c (advance t (world fr'))
        = (clock (world fr) + timer_delay ms <=? t)%N.
Proof.
  intros Hwf. rewrite createTimeoutController_run.
  eexists _, _, _. split; [reflexivity|].
  cbn [with_world world locals].
  split; [reflexivity|]. split; [apply armed_is_pending|].
  split.
  { unfold is_aborted, armed; cbn [controllers]. apply nth_fresh. }
  intros t. unfold is_aborted, advance, armed; cbn [controllers timers clock].
  destruct (N.leb_spec (clock (world fr) + timer_delay ms) t) as [Hdue|Hnot].
  - now apply run_due_fires.
  - rewrite run_due_untouched; [apply nth_fresh|].
    rewrite forallb_app. rewrite (stale_timers_miss t _ Hwf).
    cbn [forallb due aborts andb].
    destruct (N.leb_spec (clock (world fr) + timer_delay ms) t); [lia|].
    now rewrite orb_true_r.
Qed.

(** In the empty host, a 30-second controller is aborted from 30000 ms
    on, and one asked for with a delay of 0 ms from 1 ms on. *)
Lemma createTimeoutController_aborts_at_deadline_witness :
  (exists c h fr',
      createTimeoutController 30000 {| world := world0; locals := tt |}
      = Some (Normal (c, h), fr')
      /\ locals fr' = tt
      /\ is_pending h (world fr') = true
      /\ is_aborted c (world fr') = false
      /\ forall t, is_aborted c (advance t (world fr')) = (0 + 30000 <=? t)%N)
  /\ (exists c h fr',
         createTimeoutController 0 {| world := world0; locals := tt |}
         = Some (Normal (c, h), fr')
         /\ locals fr' = tt
         /\ is_pending h (world fr') = true
         /\ is_aborted c (world fr') = false
         /\ forall t, is_aborted c (advance t (world fr')) = (0 + 1 <=? t)%N).
Proof.
  split.
  - exact (createTimeoutController_aborts_at_deadline
             30000 {| world := world0; locals := tt |} eq_refl).
  - exact (createTimeoutController_aborts_at_deadline
             0 {| world := world0; locals := tt |} eq_refl).
Defined.

(** [clearTimeout] on the handle that [createTimeoutController] returned
    cancels the deadline: the timer is no longer pending and the controller
    is never aborted, however much time passes. *)
Theorem cleared_timer_never_aborts {L : Type} (ms : N) (fr : Frame L) :
  well_formed (world fr) = true ->
  exists c h fr1 fr2,
    createTimeoutController ms fr = Some (Normal (c, h), fr1)
    /\ clearTimeout (Some h) fr1 = Some (Normal tt, fr2)
    /\ is_pending h (world fr2) = false
    /\ forall t, is_aborted c (advance t (world fr2)) = false.
Proof.
  intros Hwf. rewrite createTimeoutController_run.
  eexists _, _, _, _. split; [reflexivity|]. split; [reflexivity|].
  cbn [with_world world locals armed timers controllers clock console].
  rewrite set_nth_last. split.
  { unfold is_pending; cbn [timers].
    rewrite app_nth2, Nat.sub_diag by lia. reflexivity. }
  intros t. unfold is_aborted, advance; cbn [controllers timers].
  rewrite run_due_untouched; [apply nth_fresh|].
  rewrite forallb_app, (stale_timers_miss t _ Hwf). reflexivity.
Qed.

Lemma cleared_timer_never_aborts_witness :
  exists c h fr1 fr2,
    createTimeoutController 30000
      {| world := Sample.busy_world; locals := tt |}
    = Some (Normal (c, h), fr1)
    /\ clearTimeout (Some h) fr1 = Some (Normal tt, fr2)
    /\ is_pending h (world fr2) = false
    /\ forall t, is_aborted c (advance t (world fr2)) = false.
Proof.
  exact (cleared_timer_never_aborts
           30000 {| world := Sample.busy_world; locals := tt |} eq_refl).
Defined.

(** ** The timeout-aware [POST]: before the upstream is called *)



(** ** The timeout-aware [POST]: what it asks of the upstream *)



(** ** The timeout-aware [POST]: success statuses with unusable bodies *)

Lemma rejected_choices (v : value) :
  (forall first rest, v <> Arr (first :: rest)) ->
  negb (truthy v) || negb (Array_isArray v) || length_is_zero v = true.
Proof.
  intros Hv.
  destruct (negb (truthy v) || negb (Array_isArray v) || length_is_zero v)
    eqn:Hc; [reflexivity|].
  destruct (accepted_choices v Hc) as [items ->].
  destruct items as [|first rest]; [discriminate Hc|].
  now elim (Hv first rest).
Qed.

(** A success status whose body is not JSON is answered 502 "Invalid
    response from AI service". *)
Theorem POST_success_body_not_json
        (env : Env) (up : Upstream) (request : Request) (w : World)
        (props : list (string * value)) (msgs : list value) (key : string)
        (lat : N) (r : FetchResponse) (e : JsError) :
  well_formed w = true ->
  request_json request = inr (Obj props) ->
  lookup "message" props = Some (Arr msgs) ->
  OPENROUTER_API_KEY env = Some key ->
  key <> "" ->
  up (chat_request env (Some key) (Arr msgs)) = Responds lat r ->
  (lat < 30000)%N ->
  ok r = true ->
  resp_json r = inl e ->
  exists w',
    run_POST env up request w =
    Some (Resolved
            {| status := 502;
               body := Obj [("error",
                             Str "Invalid response from AI service")] |},
          w').
Proof.
  intros Hwf Hreq Hmsg Hkey Hne Hup Hlat Hok Hjson.
  destruct (run_POST_reply env up request w Hwf) as [w' Hrun].
  exists w'. rewrite Hrun.
  rewrite (reply_dispatch env up request props msgs key Hreq Hmsg Hkey Hne).
  rewrite Hup. cbn [reply_to_outcome]. rewrite (in_time lat Hlat).
  unfold reply_to_response. now rewrite Hok, Hjson.
Qed.

Lemma POST_success_body_not_json_witness :
  exists w',
    run_POST Sample.env
             (Sample.answering
                {| resp_status := 200; resp_statusText := "OK";
                   resp_text := inr "<html>"; 
                   resp_json := inl Sample.SyntaxError |})
             Sample.request world0 =
    Some (Resolved (error_response "Invalid response from AI service" 502),
          w').
Proof.
  apply (POST_success_body_not_json
           Sample.env _ Sample.request world0 Sample.props Sample.messages
           Sample.key 120%N
           {| resp_status := 200; resp_statusText := "OK";
              resp_text := inr "<html>";
              resp_json := inl Sample.SyntaxError |}
           Sample.SyntaxError); try reflexivity.
  discriminate.
Defined.

(** A success status whose JSON body is not [null] and has no non-empty
    [choices] array ([choices] missing, not an array, or empty; a body that
    is a number, a string or an array) is answered 502 "Unexpected response
    format from AI service". *)
Theorem POST_success_body_without_choices
        (env : Env) (up : Upstream) (request : Request) (w : World)
        (props : list (string * value)) (msgs : list value) (key : string)
        (lat : N) (r : FetchResponse) (data : value) :
  well_formed w = true ->
  request_json request = inr (Obj props) ->
  lookup "message" props = Some (Arr msgs) ->
  OPENROUTER_API_KEY env = Some key ->
  key <> "" ->
  up (chat_request env (Some key) (Arr msgs)) = Responds lat r ->
  (lat < 30000)%N ->
  ok r = true ->
  resp_json r = inr data ->
  data <> Null ->
  data <> Undefined ->
  (forall first rest, own_prop data "choices" <> Arr (first :: rest)) ->
  exists w',
    run_POST env up request w =
    Some (Resolved
            {| status := 502;
               body := Obj [("error",
                             Str "Unexpected response format from AI service")] |},
          w').
Proof.
  intros Hwf Hreq Hmsg Hkey Hne Hup Hlat Hok Hjson Hnull Hundef Hch.
  destruct (run_POST_reply env up request w Hwf) as [w' Hrun].
  exists w'. rewrite Hrun.
  rewrite (reply_dispatch env up request props msgs key Hreq Hmsg Hkey Hne).
  rewrite Hup. cbn [reply_to_outcome]. rewrite (in_time lat Hlat).
  unfold reply_to_response. rewrite Hok, Hjson.
  destruct data; try contradiction; now rewrite (rejected_choices _ Hch).
Qed.

(** The example of the specification: an empty [choices] array. *)
Lemma POST_success_body_without_choices_witness :
  exists w',
    run_POST Sample.env
             (Sample.answering (Sample.json_reply (Obj [("choices", Arr [])])))
             Sample.request world0 =
    Some (Resolved
            (error_response "Unexpected response format from AI service" 502),
          w').
Proof.
  apply (POST_success_body_without_choices
           Sample.env _ Sample.request world0 Sample.props Sample.messages
           Sample.key 120%N (Sample.json_reply (Obj [("choices", Arr [])]))
           (Obj [("choices", Arr [])])); try reflexivity; discriminate.
Defined.

(** A success status whose body is the JSON text [null]: reading
    [data.choices] throws, the top-level [catch] takes over and the answer
    is 500 "An unexpected error occurred. Please try again.", not one of
    the 502 answers for a bad upstream body. *)
Theorem POST_success_body_null
        (env : Env) (up : Upstream) (request : Request) (w : World)
        (props : list (string * value)) (msgs : list value) (key : string)
        (lat : N) (r : FetchResponse) :
  well_formed w = true ->
  request_json request = inr (Obj props) ->
  lookup "message" props = Some (Arr msgs) ->
  OPENROUTER_API_KEY env = Some key ->
  key <> "" ->
  up (chat_request env (Some key) (Arr msgs)) = Responds lat r ->
  (lat < 30000)%N ->
  ok r = true ->
  resp_json r = inr Null ->
  exists w',
    run_POST env up request w =
    Some (Resolved
            {| status := 500;
               body := Obj [("error",
                             Str "An unexpected error occurred. Please try again.")] |},
          w').
Proof.
  intros Hwf Hreq Hmsg Hkey Hne Hup Hlat Hok Hjson.
  destruct (run_POST_reply env up request w Hwf) as [w' Hrun].
  exists w'. rewrite Hrun.
  rewrite (reply_dispatch env up request props msgs key Hreq Hmsg Hkey Hne).
  rewrite Hup. cbn [reply_to_outcome]. rewrite (in_time lat Hlat).
  unfold reply_to_response. now rewrite Hok, Hjson.
Qed.

Lemma POST_success_body_null_witness :
  exists w',
    run_POST Sample.env (Sample.answering (Sample.json_reply Null))
             Sample.request world0 =
    Some (Resolved
            (error_response
               "An unexpected error occurred. Please try again." 500),
          w').
Proof.
  apply (POST_success_body_null
           Sample.env _ Sample.request world0 Sample.props Sample.messages
           Sample.key 120%N (Sample.json_reply Null)); try reflexivity.
  discriminate.
Defined.

(** ** The timeout-aware [POST]: a failure named [AbortError] *)

(** The name of the error is tested before its code: a fetch failure named
    [AbortError] is answered 408 "Request timed out. Please try again."
    whatever its code is, also when it arrives before the deadline. *)
Theorem POST_abort_error_wins_over_code
        (env : Env) (up : Upstream) (request : Request) (w : World)
        (props : list (string * value)) (msgs : list value) (key : string)
        (lat : N) (e : JsError) :
  well_formed w = true ->
  request_json request = inr (Obj props) ->
  lookup "message" props = Some (Arr msgs) ->
  OPENROUTER_API_KEY env = Some key ->
  key <> "" ->
  up (chat_request env (Some key) (Arr msgs)) = Rejects lat e ->
  err_name e = "AbortError" ->
  exists w',
    run_POST env up request w =
    Some (Resolved
            {| status := 408;
               body := Obj [("error",
                             Str "Request timed out. Please try again.")] |},
          w').
Proof.
  intros Hwf Hreq Hmsg Hkey Hne Hup Hname.
  destruct (run_POST_reply env up request w Hwf) as [w' Hrun].
  exists w'. rewrite Hrun.
  rewrite (reply_dispatch env up request props msgs key Hreq Hmsg Hkey Hne).
  rewrite Hup. cbn [reply_to_outcome].
  destruct (30000 <=? lat)%N; [reflexivity|].
  unfold reply_to_failure. now rewrite Hname.
Qed.

Lemma POST_abort_error_wins_over_code_witness :
  exists w',
    run_POST Sample.env (Sample.failing "AbortError" "ECONNREFUSED")
             Sample.request world0 =
    Some (Resolved
            (error_response "Request timed out. Please try again." 408), w').
Proof.
  apply (POST_abort_error_wins_over_code
           Sample.env _ Sample.request world0 Sample.props Sample.messages
           Sample.key 15%N
           {| err_name := "AbortError"; err_message := "fetch failed";
              err_code := Str "ECONNREFUSED"; err_cause := Undefined |});
    try reflexivity.
  discriminate.
Defined.

(** ** The timeout-aware [POST]: the host after an answer in time *)





(** ** The timeout-aware [POST]: the upstream's error body *)

(** On a non-success status the handler writes a line to the console,
    with the status, the status text and the upstream's error body, and
    does not fail when that body cannot be read: it logs the placeholder
    "Unable to read error response" and goes on.  It answers 401 to 401,
    429 to 429, 503 to every status from 500 on, and every other status
    with that status when [NextResponse.json] accepts it; when it does not
    (304, a status below 200), the call throws, the handler writes a second
    line to the console, with the error, and answers 500. *)
Theorem POST_logs_upstream_error_body
        (env : Env) (up : Upstream) (request : Request) (w : World)
        (props : list (string * value)) (msgs : list value) (key : string)
        (lat : N) (r : FetchResponse) :
  well_formed w = true ->
  request_json request = inr (Obj props) ->
  lookup "message" props = Some (Arr msgs) ->
  OPENROUTER_API_KEY env = Some key ->
  key <> "" ->
  up (chat_request env (Some key) (Arr msgs)) = Responds lat r ->
  (lat < 30000)%N ->
  ok r = false ->
  exists res w',
    run_POST env up request w = Some (Resolved res, w')
    /\ console w'
       = console w
         ++ [("OpenRouter API error:",
              LogUpstream (resp_status r) (resp_statusText r)
                          match resp_text r with
                          | inr text => text
                          | inl _ => "Unable to read error response"
                          end)]
         ++ (if (resp_status r =? 401)%Z || (resp_status r =? 429)%Z
                || (500 <=? resp_status r)%Z
             then []
             else
               match NextResponse_json_init
                       (error_body "Failed to get response from AI service")
                       (resp_status r)
               with
               | inl e => [("Chat API error:", LogError e)]
               | inr _ => []
               end)
    /\ status res
       = (if (resp_status r =? 401)%Z then 401
          else if (resp_status r =? 429)%Z then 429
          else if (500 <=? resp_status r)%Z then 503
          else if accepts_status (resp_status r) then resp_status r
          else 500)%Z.
Proof.
  intros Hwf Hreq Hmsg Hkey Hne Hup Hlat Hok.
  unfold run_POST. js_unfold. rewrite Hreq. js_simpl.
  cbn [own_prop]. rewrite Hmsg. js_simpl. rewrite Hkey. cbn [env_value].
  rewrite (truthy_nonempty _ Hne). js_simpl.
  rewrite createTimeoutController_run. js_simpl.
  rewrite (fetch_deadline _ _ _ _ Hwf), Hup, (in_time lat Hlat). js_simpl.
  rewrite Hok. js_simpl.
  destruct (resp_text r); js_simpl.
  all: destruct (resp_status r =? 401)%Z; js_simpl;
    [eexists _, _; split; [reflexivity|]; split; reflexivity|].
  all: destruct (resp_status r =? 429)%Z; js_simpl;
    [eexists _, _; split; [reflexivity|]; split; reflexivity|].
  all: destruct (500 <=? resp_status r)%Z; js_simpl;
    [eexists _, _; split; [reflexivity|]; split; reflexivity|].
  all: destruct (accepts_status (resp_status r)) eqn:Hacc.
  all: try (rewrite !(NextResponse_json_init_fixed _ _ Hacc); js_simpl;
            eexists _, _; split; [reflexivity|]; split; reflexivity).
  all: destruct (NextResponse_json_init_refused
                   (error_body "Failed to get response from AI service")
                   _ Hacc) as [e He].
  all: unfold error_body in He |- *; rewrite !He; js_simpl.
  all: destruct (NextResponse_error_unrecognised _ _ _ He) as [H1 H2].
  all: rewrite H1, H2; js_simpl.
  all: eexists _, _; split; [reflexivity|]; split; [|reflexivity].
  all: cbn [console]; now rewrite <- app_assoc.
Qed.

(** A 503 whose body cannot be read, and a 304. *)
Lemma POST_logs_upstream_error_body_witness :
  (exists res w',
      run_POST Sample.env
               (Sample.answering
                  {| resp_status := 503;
                     resp_statusText := "Service Unavailable";
                     resp_text := inl Sample.SyntaxError;
                     resp_json := inl Sample.SyntaxError |})
               Sample.request world0 = Some (Resolved res, w')
      /\ console w'
         = [("OpenRouter API error:",
             LogUpstream 503 "Service Unavailable"
                         "Unable to read error response")]
      /\ status res = 503%Z)
  /\ (exists res w',
         run_POST Sample.env
                  (Sample.answering (Sample.error_reply 304 ""))
                  Sample.request world0 = Some (Resolved res, w')
         /\ console w'
            = [("OpenRouter API error:",
                LogUpstream 304 (resp_statusText (Sample.error_reply 304 ""))
                            "");
               ("Chat API error:", LogError (TypeError_null_body 304))]
         /\ status res = 500%Z).
Proof.
  split.
  - apply (POST_logs_upstream_error_body
             Sample.env _ Sample.request world0 Sample.props Sample.messages
             Sample.key 120%N
             {| resp_status := 503; resp_statusText := "Service Unavailable";
                resp_text := inl Sample.SyntaxError;
                resp_json := inl Sample.SyntaxError |}); try reflexivity.
    discriminate.
  - apply (POST_logs_upstream_error_body
             Sample.env _ Sample.request world0 Sample.props Sample.messages
             Sample.key 120%N (Sample.error_reply 304 "")); try reflexivity.
    discriminate.
Defined.

(** ** The base [POST] ([route.js]) *)

Lemma base_reply_valid (env : Env) (up : Upstream) (request : Request)
      (props : list (string * value)) (msgs : list value) (key : string) :
  request_json request = inr (Obj props) ->
  lookup "message" props = Some (Arr msgs) ->
  OPENROUTER_API_KEY env = Some key ->
  key <> "" ->
  base_reply env up request =
  match up (chat_request env (Some key) (Arr msgs)) with
  | Responds _ r => Some (base_reply_to_response r)
  | Rejects _ _ => Some (error_response "Internal server error" 500)
  | Hangs => None
  end.
Proof.
  intros Hreq Hmsg Hkey Hne. unfold base_reply.
  rewrite Hreq. cbn [own_prop]. rewrite Hmsg, Hkey.
  cbn [env_value]. rewrite (truthy_nonempty _ Hne). reflexivity.
Qed.

Lemma base_resolves (env : Env) (up : Upstream) (request : Request)
      (w : World) (res : Response) :
  base_reply env up request = Some res ->
  exists w', Base.run_POST env up request w = Some (Resolved res, w').
Proof.
  intros Hreply. apply option_map_fst_some.
  now rewrite run_base_reply, Hreply.
Qed.

(** The base variant has one answer for a request body it cannot use: a
    body that is not JSON and the body [null] both get 500 "Internal server
    error", where the timeout-aware variant answers 400. *)
Theorem base_POST_unusable_body_is_500
        (env : Env) (up : Upstream) (request : Request) (w : World) :
  (exists e, request_json request = inl e)
  \/ request_json request = inr Null ->
  exists w',
    Base.run_POST env up request w =
    Some (Resolved
            {| status := 500;
               body := Obj [("error", Str "Internal server error")] |},
          w').
Proof.
  intros Hreq. apply base_resolves. unfold base_reply.
  destruct Hreq as [[e ->] | ->]; reflexivity.
Qed.

Lemma base_POST_unusable_body_is_500_witness :
  exists w',
    Base.run_POST Sample.env Sample.silent Sample.garbled_request world0 =
    Some (Resolved (error_response "Internal server error" 500), w').
Proof.
  apply (base_POST_unusable_body_is_500
           Sample.env Sample.silent Sample.garbled_request world0).
  left. eexists. reflexivity.
Defined.

(** In the base variant every failure on the upstream's side ends in the
    one [catch]: a fetch that rejects, an error body that cannot be read, a
    success body that is not JSON, is [null], or has no [choices] all get
    500 "Internal server error". *)
Theorem base_POST_upstream_failure_is_500
        (env : Env) (up : Upstream) (request : Request) (w : World)
        (props : list (string * value)) (msgs : list value) (key : string) :
  request_json request = inr (Obj props) ->
  lookup "message" props = Some (Arr msgs) ->
  OPENROUTER_API_KEY env = Some key ->
  key <> "" ->
  (exists lat e,
      up (chat_request env (Some key) (Arr msgs)) = Rejects lat e)
  \/ (exists lat r,
        up (chat_request env (Some key) (Arr msgs)) = Responds lat r
        /\ ((ok r = false /\ exists e, resp_text r = inl e)
            \/ (ok r = true /\ exists e, resp_json r = inl e)
            \/ (ok r = true /\ resp_json r = inr Null)
            \/ (ok r = true
                /\ exists data,
                    resp_json r = inr data
                    /\ (own_prop data "choices" = Undefined
                        \/ own_prop data "choices" = Null)))) ->
  exists w',
    Base.run_POST env up request w =
    Some (Resolved
            {| status := 500;
               body := Obj [("error", Str "Internal server error")] |},
          w').
Proof.
  intros Hreq Hmsg Hkey Hne Hcases. apply base_resolves.
  rewrite (base_reply_valid env up request props msgs key Hreq Hmsg Hkey Hne).
  destruct Hcases as [(lat & e & ->) | (lat & r & -> & Hr)]; [reflexivity|].
  f_equal. unfold base_reply_to_response.
  destruct Hr as [(-> & e & ->)
                 | [(-> & e & ->)
                   | [(-> & ->)
                     | (-> & data & -> & Hch)]]]; try reflexivity.
  destruct data; try reflexivity.
  destruct Hch as [-> | ->]; reflexivity.
Qed.

(** A refused connection, and a success reply without [choices]. *)
Lemma base_POST_upstream_failure_is_500_witness :
  (exists w',
      Base.run_POST Sample.env (Sample.failing "TypeError" "ECONNREFUSED")
                    Sample.request world0 =
      Some (Resolved (error_response "Internal server error" 500), w'))
  /\ (exists w',
         Base.run_POST Sample.env
                       (Sample.answering (Sample.json_reply (Obj [])))
                       Sample.request world0 =
         Some (Resolved (error_response "Internal server error" 500), w')).
Proof.
  assert (Hne : Sample.key <> "") by discriminate.
  split.
  - apply (base_POST_upstream_failure_is_500
             Sample.env _ Sample.request world0 Sample.props Sample.messages
             Sample.key eq_refl eq_refl eq_refl Hne).
    left. eexists _, _. reflexivity.
  - apply (base_POST_upstream_failure_is_500
             Sample.env _ Sample.request world0 Sample.props Sample.messages
             Sample.key eq_refl eq_refl eq_refl Hne).
    right. eexists _, _. split; [reflexivity|].
    right. right. right. split; [reflexivity|].
    exists (Obj []). split; [reflexivity|]. left. reflexivity.
Defined.

(** The base variant maps no status: every non-success status whose body
    can be read and that [NextResponse.json] accepts, 401, 429 and the 5xx
    included, goes to the caller as it is, with the message "Failed to get
    response from AI service".  A status that [NextResponse.json] refuses
    (304, a status below 200 or above 599) makes that call throw, and the
    [catch] answers 500 "Internal server error". *)
Theorem base_POST_passes_status_through
        (env : Env) (up : Upstream) (request : Request) (w : World)
        (props : list (string * value)) (msgs : list value) (key : string)
        (lat : N) (r : FetchResponse) (text : string) :
  request_json request = inr (Obj props) ->
  lookup "message" props = Some (Arr msgs) ->
  OPENROUTER_API_KEY env = Some key ->
  key <> "" ->
  up (chat_request env (Some key) (Arr msgs)) = Responds lat r ->
  ok r = false ->
  resp_text r = inr text ->
  exists w',
    Base.run_POST env up request w =
    Some (Resolved
            (if accepts_status (resp_status r)
             then {| status := resp_status r;
                     body := Obj [("error",
                                   Str "Failed to get response from AI service")] |}
             else {| status := 500;
                     body := Obj [("error", Str "Internal server error")] |}),
          w').
Proof.
  intros Hreq Hmsg Hkey Hne Hup Hok Htext. apply base_resolves.
  rewrite (base_reply_valid env up request props msgs key Hreq Hmsg Hkey Hne).
  rewrite Hup. unfold base_reply_to_response. rewrite Hok, Htext.
  destruct (accepts_status (resp_status r)) eqn:Hacc.
  - now rewrite (relay_accepted _ _ _ Hacc).
  - now rewrite (relay_refused _ _ _ Hacc).
Qed.

(** An upstream 503 is passed on, an upstream 304 is answered 500. *)
Lemma base_POST_passes_status_through_witness :
  (exists w',
      Base.run_POST Sample.env
                    (Sample.answering (Sample.error_reply 503 "Overloaded"))
                    Sample.request world0 =
      Some (Resolved
              (error_response "Failed to get response from AI service" 503),
            w'))
  /\ (exists w',
         Base.run_POST Sample.env
                       (Sample.answering (Sample.error_reply 304 ""))
                       Sample.request world0 =
         Some (Resolved (error_response "Internal server error" 500), w')).
Proof.
  split.
  - apply (base_POST_passes_status_through
             Sample.env _ Sample.request world0 Sample.props Sample.messages
             Sample.key 120%N (Sample.error_reply 503 "Overloaded")
             "Overloaded"); try reflexivity.
    discriminate.
  - apply (base_POST_passes_status_through
             Sample.env _ Sample.request world0 Sample.props Sample.messages
             Sample.key 120%N (Sample.error_reply 304 "")
             ""); try reflexivity.
    discriminate.
Defined.

(** The base variant does not check the structure of a success body: as
    soon as [data.choices] is neither missing nor [null], whatever it is (an
    empty array, a string, a number), the answer is 200 with
    [success: true], and the placeholder "No response generated" when
    [choices[0]?.message?.content] is not truthy. *)
Theorem base_POST_accepts_any_choices
        (env : Env) (up : Upstream) (request : Request) (w : World)
        (props : list (string * value)) (msgs : list value) (key : string)
        (lat : N) (r : FetchResponse) (data : value) :
  request_json request = inr (Obj props) ->
  lookup "message" props = Some (Arr msgs) ->
  OPENROUTER_API_KEY env = Some key ->
  key <> "" ->
  up (chat_request env (Some key) (Arr msgs)) = Responds lat r ->
  ok r = true ->
  resp_json r = inr data ->
  own_prop data "choices" <> Undefined ->
  own_prop data "choices" <> Null ->
  exists w',
    Base.run_POST env up request w =
    Some (Resolved
            {| status := 200;
               body :=
                 Obj [("success", Bool true);
                      ("response",
                        or_else
                          (opt_prop
                             (opt_prop
                                (own_index (own_prop data "choices") 0)
                                "message")
                             "content")
                          (Str "No response generated"));
                      ("usage", own_prop data "usage")] |},
          w').
Proof.
  intros Hreq Hmsg Hkey Hne Hup Hok Hjson Hundef Hnull. apply base_resolves.
  rewrite (base_reply_valid env up request props msgs key Hreq Hmsg Hkey Hne).
  rewrite Hup. unfold base_reply_to_response. rewrite Hok, Hjson.
  unfold success_response.
  destruct data; try (now elim Hundef).
  destruct (own_prop (Obj props0) "choices"); try contradiction; reflexivity.
Qed.

(** An empty [choices] array: 200 with the placeholder. *)
Lemma base_POST_accepts_any_choices_witness :
  exists w',
    Base.run_POST Sample.env
                  (Sample.answering
                     (Sample.json_reply (Obj [("choices", Arr [])])))
                  Sample.request world0 =
    Some (Resolved
            {| status := 200;
               body := Obj [("success", Bool true);
                            ("response", Str "No response generated");
                            ("usage", Undefined)] |},
          w').
Proof.
  apply (base_POST_accepts_any_choices
           Sample.env _ Sample.request world0 Sample.props Sample.messages
           Sample.key 120%N (Sample.json_reply (Obj [("choices", Arr [])]))
           (Obj [("choices", Arr [])])); try reflexivity; discriminate.
Defined.
